(** * cloudflared: connection supervisor and edge dialer

    A shallow embedding of the retry, protocol-fallback and edge-dialing
    logic of [supervisor/supervisor.go], [supervisor/tunnel.go] and
    [edgediscovery/dial.go], with the properties the specification states
    about them. *)

From Stdlib Require Import ZArith Bool String Ascii List Lia.
From stdpp Require Import base option gmap strings list fin_maps.

Set Warnings "-clear-no-such-hyp".

Local Open Scope string_scope.
Local Open Scope Z_scope.

(** ** Go values shared by the packages *)

(** [strings.Contains(s, substr)]. *)
Fixpoint strings_Contains (s substr : string) : bool :=
  String.prefix substr s ||
  match s with
  | EmptyString => false
  | String _ s' => strings_Contains s' substr
  end.

(** The dynamic types an [error] interface value is switched on. A pointer
    type and its element type are distinct dynamic types in Go; the names
    below are the ones the [case] labels of the source use. *)
Inductive errType : Set :=
  | DupConnRegisterTunnelError   (* connection.DupConnRegisterTunnelError *)
  | IdleTimeoutError             (* *quic.IdleTimeoutError *)
  | ApplicationError             (* *quic.ApplicationError *)
  | TransportError               (* *quic.TransportError *)
  | DialError                    (* edgediscovery.DialError *)
  | EdgeQuicDialError            (* *connection.EdgeQuicDialError *)
  | ControlStreamError           (* *connection.ControlStreamError *)
  | StreamListenerError          (* *connection.StreamListenerError *)
  | DatagramManagerError         (* *connection.DatagramManagerError *)
  | ErrNoAddressesLeft           (* edgediscovery.ErrNoAddressesLeft *)
  | ReconnectSignal              (* supervisor.ReconnectSignal *)
  | ServerRegisterTunnelError    (* connection.ServerRegisterTunnelError *)
  | WrappedError                 (* what errors.Wrap of pkg/errors builds *)
  | PlainError.                  (* errors.New, fmt.Errorf, anything else *)

#[global] Instance errType_eq_dec : EqDecision errType.
Proof. solve_decision. Defined.

(** A non-nil [error]: its dynamic type, what [Error()] prints, and what
    [Unwrap()] returns. A nil [error] is [None : option error]. *)
#[warnings="-register-all"]
Inductive error : Set :=
  | mkError (ty : errType) (msg : string) (inner : option error).

Definition dynType (e : error) : errType :=
  match e with mkError ty _ _ => ty end.

Definition Error (e : error) : string :=
  match e with mkError _ msg _ => msg end.

Definition Unwrap (e : error) : option error :=
  match e with mkError _ _ inner => inner end.

(** [errors.As(err, &target)] for a target of dynamic type [ty]: walks the
    [Unwrap] chain. *)
Fixpoint errors_As_chain (ty : errType) (e : error) : bool :=
  match e with
  | mkError t _ inner =>
      bool_decide (t = ty) ||
      match inner with
      | Some e' => errors_As_chain ty e'
      | None => false
      end
  end.

Definition errors_As (err : option error) (ty : errType) : bool :=
  match err with
  | None => false
  | Some e => errors_As_chain ty e
  end.

(** [errors.Wrap(err, message)] of github.com/pkg/errors. *)
Definition errors_Wrap (err : error) (message : string) : error :=
  mkError WrappedError (message ++ ": " ++ Error err) (Some err).

(** Arithmetic of Go's [uint8]. *)
Definition uint8 (z : Z) : Z := z mod 256.

(** ** supervisor/tunnel.go: the edge-address handler *)

Record ConnectivityError : Set := NewConnectivityError {
  reachedMaxRetries : bool
}.

Definition HasReachedMaxRetries (e : ConnectivityError) : bool :=
  reachedMaxRetries e.

Record ipAddrFallback : Type := mkIpAddrFallback {
  retriesByConnIndex : gmap Z Z;
  maxRetries : Z
}.

Definition NewIPAddrFallback (maxRetries : Z) : ipAddrFallback :=
  {| retriesByConnIndex := ∅; maxRetries := maxRetries |}.

(** Reading a Go map at a key it does not hold yields the zero value. *)
Definition retriesOf (f : ipAddrFallback) (connIndex : Z) : Z :=
  default 0 (retriesByConnIndex f !! connIndex).

Definition setRetries (f : ipAddrFallback) (connIndex v : Z) : ipAddrFallback :=
  {| retriesByConnIndex := <[connIndex := v]> (retriesByConnIndex f);
     maxRetries := maxRetries f |}.

(** [ShouldGetNewAddress], with the receiver passed in and out. The result
    is [(needsNewAddress, connectivityError)]. *)
Definition ShouldGetNewAddress (f : ipAddrFallback) (connIndex : Z)
    (err : option error) : ipAddrFallback * (bool * option ConnectivityError) :=
  match err with
  | None => (f, (false, None))
  | Some e =>
      match dynType e with
      | DupConnRegisterTunnelError | IdleTimeoutError => (f, (true, None))
      | DialError | EdgeQuicDialError =>
          if maxRetries f <=? retriesOf f connIndex then
            (setRetries f connIndex 0, (true, Some (NewConnectivityError true)))
          else
            (setRetries f connIndex (uint8 (retriesOf f connIndex + 1)),
             (true, Some (NewConnectivityError false)))
      | _ => (f, (false, None))
      end
  end.

(** A run of calls on one handler. *)
Fixpoint ShouldGetNewAddress_seq (f : ipAddrFallback)
    (calls : list (Z * option error)) : ipAddrFallback :=
  match calls with
  | [] => f
  | (i, err) :: rest => ShouldGetNewAddress_seq (ShouldGetNewAddress f i err).1 rest
  end.

(** The values a [uint8] field and a [map[uint8]uint8] can hold. *)
Definition is_uint8 (z : Z) : Prop := 0 <= z < 256.

Definition ipAddrFallback_wf (f : ipAddrFallback) : Prop :=
  is_uint8 (maxRetries f) ∧
  ∀ i v, retriesByConnIndex f !! i = Some v → is_uint8 i ∧ is_uint8 v.

(** Whether [ShouldGetNewAddress] takes the dial-error case. *)
Definition isDialFailure (err : option error) : bool :=
  match err with
  | Some e =>
      bool_decide (dynType e = DialError) ||
      bool_decide (dynType e = EdgeQuicDialError)
  | None => false
  end.

(** The counters stay between zero and the maximum. *)
Definition retriesBounded (f : ipAddrFallback) : Prop :=
  ∀ i, 0 <= retriesOf f i <= maxRetries f.

(** ** The collaborators of [protocolFallback] *)

Module retry.

(** Modelled from the spec: the [retry] package ([retry.BackoffHandler]
    with [ResetNow] and [ReachedMaxRetries]) is not among the sources.
    The spec (4.2) gives the handler a backoff counter that [reset()] and
    [fallback(p)] clear, and [ReachedMaxRetries()] tells whether that
    counter has reached the configured maximum ([config.Retries], the
    first argument of [retry.NewBackoff] at its call sites). Both are
    Go [uint]s. *)
Record BackoffHandler : Set := mkBackoffHandler {
  maxRetries : N;
  retries : N
}.

(** Modelled from the spec: [NewBackoff], whose first argument is the
    maximum; the counter starts at zero. The base time and the flag its
    call sites also pass play no part in what follows. *)
Definition NewBackoff (maxRetries : N) : BackoffHandler :=
  {| maxRetries := maxRetries; retries := 0 |}.

(** Modelled from the spec: [ResetNow] clears the backoff counter. *)
Definition ResetNow (b : BackoffHandler) : BackoffHandler :=
  {| maxRetries := maxRetries b; retries := 0 |}.

(** Modelled from the spec: [ReachedMaxRetries], of which the spec (4.2)
    gives the name and the result type only. It is read here as: the
    counter has reached the maximum. What is proved about
    [selectNextProtocol] takes its answer as it comes, whatever the
    handler. *)
Definition ReachedMaxRetries (b : BackoffHandler) : bool :=
  (retries b =? maxRetries b)%N.

End retry.

Module connection.

(** Modelled from the spec: [connection.Protocol] is declared outside the
    sources; the spec (3) gives it the two values QUIC and HTTP2. *)
Inductive Protocol : Set := HTTP2 | QUIC.

#[global] Instance Protocol_eq_dec : EqDecision Protocol.
Proof. solve_decision. Defined.

(** The [connection.ProtocolSelector] interface, as the two methods
    [selectNextProtocol] calls: [Current()] and [Fallback()], the latter
    returning the fallback protocol and whether there is one. *)
Record ProtocolSelector : Set := mkProtocolSelector {
  Current : Protocol;
  Fallback : Protocol * bool
}.

End connection.

(** ** supervisor/tunnel.go: protocol fallback *)

Record protocolFallback : Set := mkProtocolFallback {
  BackoffHandler : retry.BackoffHandler;
  protocol : connection.Protocol;
  inFallback : bool
}.

Definition reset (pf : protocolFallback) : protocolFallback :=
  {| BackoffHandler := retry.ResetNow (BackoffHandler pf);
     protocol := protocol pf;
     inFallback := false |}.

Definition fallback (pf : protocolFallback) (fallback : connection.Protocol)
    : protocolFallback :=
  {| BackoffHandler := retry.ResetNow (BackoffHandler pf);
     protocol := fallback;
     inFallback := true |}.

(** The embedded handler's method, promoted to [protocolFallback]. *)
Definition ReachedMaxRetries (pf : protocolFallback) : bool :=
  retry.ReachedMaxRetries (BackoffHandler pf).

Definition isQuicBroken (cause : option error) : bool :=
  if errors_As cause IdleTimeoutError then true
  else if errors_As cause TransportError &&
          match cause with
          | Some e => strings_Contains (Error e) "operation not permitted"
          | None => false
          end
       then true
       else false.

(** [selectNextProtocol], with [protocolBackoff] passed in and out; the
    log lines are left out. *)
Definition selectNextProtocol (protocolBackoff : protocolFallback)
    (selector : connection.ProtocolSelector) (cause : option error)
    : protocolFallback * bool :=
  let isQuicBroken := isQuicBroken cause in
  let hasFallback := (connection.Fallback selector).2 in
  if ReachedMaxRetries protocolBackoff || (hasFallback && isQuicBroken) then
    let '(fallbackProto, hasFallback) := connection.Fallback selector in
    if negb hasFallback then (protocolBackoff, false)
    else if bool_decide (protocol protocolBackoff = fallbackProto)
    then (protocolBackoff, false)
    else (fallback protocolBackoff fallbackProto, true)
  else if negb (inFallback protocolBackoff) then
    let current := connection.Current selector in
    if bool_decide (protocol protocolBackoff ≠ current) then
      ({| BackoffHandler := BackoffHandler protocolBackoff;
          protocol := current;
          inFallback := inFallback protocolBackoff |}, true)
    else (protocolBackoff, true)
  else (protocolBackoff, true).

(** The guard of [selectNextProtocol]'s first branch. *)
Definition fallbackGuard (pf : protocolFallback)
    (selector : connection.ProtocolSelector) (cause : option error) : bool :=
  ReachedMaxRetries pf || ((connection.Fallback selector).2 && isQuicBroken cause).

(** ** supervisor/supervisor.go: the connecting set *)

(** A [chan struct{}] is known by its identity; [make] hands out the next
    one. A nil channel is [None]. *)
Definition chan : Set := positive.

Record Supervisor : Type := mkSupervisor {
  tunnelsConnecting : gmap Z chan;
  tunnelsProtocolFallback : gmap Z protocolFallback;
  nextConnectedIndex : Z;
  nextConnectedSignal : option chan;
  (* the channels [make] has handed out so far *)
  chansMade : positive
}.

(** The supervisor [NewSupervisor] returns: both maps empty, the other
    fields at their zero values. *)
Definition NewSupervisor : Supervisor :=
  {| tunnelsConnecting := ∅;
     tunnelsProtocolFallback := ∅;
     nextConnectedIndex := 0;
     nextConnectedSignal := None;
     chansMade := 1%positive |}.

Definition newConnectedTunnelSignal (s : Supervisor) (index : Z)
    : Supervisor * chan :=
  let sig := chansMade s in
  ({| tunnelsConnecting := <[index := sig]> (tunnelsConnecting s);
      tunnelsProtocolFallback := tunnelsProtocolFallback s;
      nextConnectedIndex := index;
      nextConnectedSignal := Some sig;
      chansMade := Pos.succ (chansMade s) |}, sig).

(** The first pair a [for k, v := range m] visits. Go leaves the iteration
    order of a map unspecified and varies it from one loop to the next;
    [order] stands for the choice this loop makes. *)
Definition range_first (m : gmap Z chan) (order : nat) : option (Z * chan) :=
  let l := map_to_list m in
  l !! (order `mod` length l)%nat.

Definition waitForNextTunnel (order : nat) (s : Supervisor) (index : Z)
    : Supervisor * bool :=
  let connecting := delete index (tunnelsConnecting s) in
  match range_first connecting order with
  | Some (k, v) =>
      ({| tunnelsConnecting := connecting;
          tunnelsProtocolFallback := tunnelsProtocolFallback s;
          nextConnectedIndex := k;
          nextConnectedSignal := Some v;
          chansMade := chansMade s |}, true)
  | None =>
      ({| tunnelsConnecting := connecting;
          tunnelsProtocolFallback := tunnelsProtocolFallback s;
          nextConnectedIndex := nextConnectedIndex s;
          nextConnectedSignal := None;
          chansMade := chansMade s |}, false)
  end.

(** ** supervisor/supervisor.go: the steady-state loop of [Run] *)

(** The local variables of [Run] together with the receiver, and what the
    loop has done to its surroundings: the tunnels it has launched with
    [go s.startTunnel], and its calls on the shared [backoff]. *)
Record runState : Type := mkRunState {
  sup : Supervisor;
  tunnelsWaiting : list Z;
  tunnelsActive : Z;
  (* nil, or the channel the n-th call of [backoff.BackoffTimer()] returned *)
  backoffTimer : option nat;
  shuttingDown : bool;
  started : list (Z * chan);
  backoffTimerCalls : nat;
  setGracePeriodCalls : nat
}.

(** The [case] of the [select] that fires. *)
Inductive runEvent : Type :=
  | CtxDone
  | TunnelError (index : Z) (err : option error)
  | BackoffTimerFired
  | NextConnected
  | GracefulShutdown.

(** What the surroundings answer during one iteration:
    [GetMaxBackoffDuration(ctx)] of the [retry] package (not among the
    sources) for the protocol fallback of an index, and the map iteration
    order. *)
Record runEnv : Type := mkRunEnv {
  moreRetries : option protocolFallback → bool;
  rangeOrder : nat
}.

Inductive runStep : Type :=
  | Continue (st : runState)          (* next iteration of the [for] *)
  | Return (st : runState) (err : option error)
  | Blocked.                          (* receive on a nil channel *)

Definition setSup (st : runState) (s : Supervisor) : runState :=
  {| sup := s; tunnelsWaiting := tunnelsWaiting st;
     tunnelsActive := tunnelsActive st; backoffTimer := backoffTimer st;
     shuttingDown := shuttingDown st; started := started st;
     backoffTimerCalls := backoffTimerCalls st;
     setGracePeriodCalls := setGracePeriodCalls st |}.

(** [go s.startTunnel(ctx, index, s.newConnectedTunnelSignal(index))]. *)
Definition goStartTunnel (st : runState) (index : Z) : runState :=
  let '(s, sig) := newConnectedTunnelSignal (sup st) index in
  {| sup := s; tunnelsWaiting := tunnelsWaiting st;
     tunnelsActive := tunnelsActive st; backoffTimer := backoffTimer st;
     shuttingDown := shuttingDown st; started := started st ++ [(index, sig)];
     backoffTimerCalls := backoffTimerCalls st;
     setGracePeriodCalls := setGracePeriodCalls st |}.

Definition setTunnelsActive (st : runState) (n : Z) : runState :=
  {| sup := sup st; tunnelsWaiting := tunnelsWaiting st;
     tunnelsActive := n; backoffTimer := backoffTimer st;
     shuttingDown := shuttingDown st; started := started st;
     backoffTimerCalls := backoffTimerCalls st;
     setGracePeriodCalls := setGracePeriodCalls st |}.

Definition hasReconnectSignalType (err : error) : bool :=
  bool_decide (dynType err = ReconnectSignal).

(** One iteration of the [for { select { ... } }] of [Run]. *)
Definition runIteration (env : runEnv) (st : runState) (ev : runEvent) : runStep :=
  match ev with
  | CtxDone =>
      (* for tunnelsActive > 0 { <-s.tunnelErrors; tunnelsActive-- } *)
      Return (setTunnelsActive st (Z.min (tunnelsActive st) 0)) None
  | TunnelError index err =>
      let st := setTunnelsActive st (tunnelsActive st - 1) in
      match err with
      | Some e =>
          if negb (shuttingDown st) then
            if hasReconnectSignalType e then
              let st := goStartTunnel st index in
              Continue (setTunnelsActive st (tunnelsActive st + 1))
            else if negb (moreRetries env (tunnelsProtocolFallback (sup st) !! index))
            then Continue st
            else
              let '(s, _) := waitForNextTunnel (rangeOrder env) (sup st) index in
              let timerUnset := bool_decide (backoffTimer st = None) in
              Continue
                {| sup := s;
                   tunnelsWaiting := tunnelsWaiting st ++ [index];
                   tunnelsActive := tunnelsActive st;
                   backoffTimer :=
                     if timerUnset then Some (backoffTimerCalls st)
                     else backoffTimer st;
                   shuttingDown := shuttingDown st;
                   started := started st;
                   backoffTimerCalls :=
                     if timerUnset then S (backoffTimerCalls st)
                     else backoffTimerCalls st;
                   setGracePeriodCalls := setGracePeriodCalls st |}
          else if bool_decide (tunnelsActive st = 0) then Return st None
          else Continue st
      | None =>
          if bool_decide (tunnelsActive st = 0) then Return st None
          else Continue st
      end
  | BackoffTimerFired =>
      match backoffTimer st with
      | None => Blocked
      | Some _ =>
          let waiting := tunnelsWaiting st in
          let st := fold_left goStartTunnel waiting st in
          Continue
            {| sup := sup st;
               tunnelsWaiting := [];
               tunnelsActive := tunnelsActive st + Z.of_nat (length waiting);
               backoffTimer := None;
               shuttingDown := shuttingDown st;
               started := started st;
               backoffTimerCalls := backoffTimerCalls st;
               setGracePeriodCalls := setGracePeriodCalls st |}
      end
  | NextConnected =>
      match nextConnectedSignal (sup st) with
      | None => Blocked
      | Some _ =>
          let '(s, more) :=
            waitForNextTunnel (rangeOrder env) (sup st) (nextConnectedIndex (sup st)) in
          Continue
            {| sup := s;
               tunnelsWaiting := tunnelsWaiting st;
               tunnelsActive := tunnelsActive st;
               backoffTimer := backoffTimer st;
               shuttingDown := shuttingDown st;
               started := started st;
               backoffTimerCalls := backoffTimerCalls st;
               setGracePeriodCalls :=
                 if negb more && bool_decide (length (tunnelsWaiting st) = 0%nat)
                 then S (setGracePeriodCalls st)
                 else setGracePeriodCalls st |}
      end
  | GracefulShutdown =>
      Continue
        {| sup := sup st;
           tunnelsWaiting := tunnelsWaiting st;
           tunnelsActive := tunnelsActive st;
           backoffTimer := backoffTimer st;
           shuttingDown := true;
           started := started st;
           backoffTimerCalls := backoffTimerCalls st;
           setGracePeriodCalls := setGracePeriodCalls st |}
  end.

(** ** supervisor/supervisor.go: the first tunnel *)

(** What one pass of the loop of [startFirstTunnel] observes: the error
    [Serve] returns, whether [ctx.Err()] is non-nil once it has returned,
    and the second result of [GetMaxBackoffDuration(ctx)] on the first
    tunnel's protocol fallback (a method of the [retry] package, not among
    the sources). *)
Record attempt : Set := mkAttempt {
  serveErr : option error;
  ctxCancelled : bool;
  retryLeft : bool
}.

(** The body of the loop after [Serve] has returned: [None] to go round
    again, [Some err] to return, the deferred function then sending
    [tunnelError{index: 0, err: err}]. *)
Definition firstTunnelPass (isStaticEdge : bool) (a : attempt)
    : option (option error) :=
  let err := serveErr a in
  if ctxCancelled a then Some err
  else match err with
  | None => Some err
  | Some e =>
      if negb (retryLeft a) then Some err
      else if strings_Contains (Error e) "Unauthorized" then None
      else match dynType e with
      | ErrNoAddressesLeft => if negb isStaticEdge then Some err else None
      | DupConnRegisterTunnelError
      | IdleTimeoutError
      | ApplicationError
      | DialError
      | EdgeQuicDialError
      | ControlStreamError
      | StreamListenerError
      | DatagramManagerError => None
      | _ => Some err
      end
  end.


(** Where [startFirstTunnel] stands after it has been given the outcomes
    of its first attempts. *)
Inductive firstTunnel : Set :=
  (* returned after [serves] calls of Serve, sending [err] *)
  | Finished (serves : nat) (err : option error)
  (* has made [serves] calls of Serve and is about to make another *)
  | Serving (serves : nat).

Fixpoint startFirstTunnel_from (isStaticEdge : bool) (serves : nat)
    (attempts : list attempt) : firstTunnel :=
  match attempts with
  | [] => Serving serves
  | a :: rest =>
      match firstTunnelPass isStaticEdge a with
      | Some err => Finished (S serves) err
      | None => startFirstTunnel_from isStaticEdge (S serves) rest
      end
  end.

Definition startFirstTunnel (isStaticEdge : bool) (attempts : list attempt)
    : firstTunnel :=
  startFirstTunnel_from isStaticEdge 0 attempts.






(** ** edgediscovery/dial.go: dialing the edge *)

(** A TCP connection is known by its identity. *)
Definition conn : Set := nat.

(** A [net.Conn]: a TCP connection, or the [tls.Client] wrapped around one. *)
Inductive netConn : Set :=
  | TCPConn (c : conn)
  | TLSConn (c : conn).

(** A [net.IP]; nil is [None]. *)
Definition IP : Set := option (list Z).

Record Userinfo : Set := mkUserinfo {
  Username : string;
  Password : option string       (* [Password()] and its [ok] *)
}.

(** The parts of a parsed [*url.URL] that [dialViaProxy] reads. *)
Record URL : Set := mkURL {
  User : option Userinfo;
  Host : string;
  Hostname : string;
  Port : string
}.

Record Auth : Set := mkAuth {
  AuthUser : string;
  AuthPassword : string
}.

(** The forwarding dialer handed to [proxy.SOCKS5]: [proxy.Direct], or a
    [net.Dialer] bound to a local address. *)
Inductive baseDialer : Set :=
  | proxy_Direct
  | net_Dialer (LocalAddr : list Z).

(** What [dialViaProxy] asks of [proxy.SOCKS5]. *)
Record socks5Dialer : Set := mkSocks5Dialer {
  proxyAddr : string;
  auth : option Auth;
  forward : baseDialer
}.

(** What the dialer does to the world, in order. *)
Inductive netEvent : Set :=
  | OpenedViaProxy (c : conn)
  | OpenedDirect (c : conn)
  | SetDeadline (c : conn) (armed : bool)
  | Handshake (c : conn)
  | Close (c : conn).

#[global] Instance netEvent_eq_dec : EqDecision netEvent.
Proof. solve_decision. Defined.

(** The world the dialer runs in: the standard library and the network
    behind it. Every call either yields its value or an error. *)
Record world : Type := mkWorld {
  url_Parse : string → URL + error;
  proxy_SOCKS5 : socks5Dialer → option error;
  (* whether the dialer [proxy.SOCKS5] built is a [proxy.ContextDialer] *)
  isContextDialer : socks5Dialer → bool;
  socks5_DialContext : socks5Dialer → string → conn + error;
  socks5_Dial : socks5Dialer → string → conn + error;
  (* [(&net.Dialer{LocalAddr: ...}).DialContext(ctx, "tcp", address)] *)
  net_DialContext : IP → string → conn + error;
  tls_Handshake : conn → option error
}.

(** Computations that log what they do to the world. *)
Definition Net (A : Type) : Type := list netEvent → A * list netEvent.

#[global] Instance Net_ret : MRet Net := λ A a log, (a, log).
#[global] Instance Net_bind : MBind Net := λ A B f m log,
  let '(a, log') := m log in f a log'.

Definition emit (ev : netEvent) : Net unit := λ log, (tt, (log ++ [ev])%list).

(** A Go [(net.Conn, error)] result. *)
Definition dialResult : Set := option conn * option error.

Definition opened (ev : conn → netEvent) (r : conn + error) : Net dialResult :=
  match r with
  | inl c => _ ← emit (ev c); mret (Some c, None)
  | inr e => mret (None, Some e)
  end.

(** [newDialError]: a [DialError] prints its cause and has a [Cause]
    method but no [Unwrap]. *)
Definition newDialError (err : error) (message : string) : error :=
  mkError DialError (Error (errors_Wrap err message)) None.

Definition dialDirect (w : world) (address : string) (localIP : IP)
    : Net dialResult :=
  opened OpenedDirect (net_DialContext w localIP address).

(** Go's [net.JoinHostPort]: a host with a colon in it, as a literal IPv6
    address has, is put in brackets. *)
Definition net_JoinHostPort (host port : string) : string :=
  if strings_Contains host ":"
  then ("[" ++ host ++ "]:" ++ port)%string
  else (host ++ ":" ++ port)%string.

(** The SOCKS5 dialer [dialViaProxy] asks for, from the parsed proxy URL
    and the local address: the forwarding dialer, the credentials and the
    proxy address, the port defaulting to 1080. *)
Definition proxyDialerFor (u : URL) (localIP : IP) : socks5Dialer :=
  let baseDial :=
    match localIP with
    | Some ip => net_Dialer ip
    | None => proxy_Direct
    end in
  let auth :=
    match User u with
    | Some ui =>
        Some {| AuthUser := Username ui;
                AuthPassword := default "" (Password ui) |}
    | None => None
    end in
  let proxyAddr :=
    if bool_decide (Port u = "") then net_JoinHostPort (Hostname u) "1080"
    else Host u in
  {| proxyAddr := proxyAddr; auth := auth; forward := baseDial |}.

(** The dial through the proxy: [DialContext] when the dialer is a
    [proxy.ContextDialer], plain [Dial] otherwise. *)
Definition proxyDial (w : world) (proxyDialer : socks5Dialer)
    (address : string) : conn + error :=
  if isContextDialer w proxyDialer
  then socks5_DialContext w proxyDialer address
  else socks5_Dial w proxyDialer address.

Definition dialViaProxy (w : world) (proxyURL address : string) (localIP : IP)
    : Net dialResult :=
  match url_Parse w proxyURL with
  | inr err => mret (None, Some (errors_Wrap err "invalid proxy URL"))
  | inl u =>
      let proxyDialer := proxyDialerFor u localIP in
      match proxy_SOCKS5 w proxyDialer with
      | Some err => mret (None, Some (errors_Wrap err "failed to create SOCKS5 dialer"))
      | None =>
          '(conn, err) ← opened OpenedViaProxy (proxyDial w proxyDialer address);
          match err with
          | Some err => mret (None, Some (errors_Wrap err "proxy dial failed"))
          | None => mret (conn, None)
          end
      end
  end.

(** The tail of [DialEdgeWithProxy]: [tls.Client] around the connection,
    the handshake under a deadline, and the deadline cleared on success. *)
Definition tlsClientHandshake (w : world) (edgeConn : conn)
    : Net (option netConn * option error) :=
  _ ← emit (SetDeadline edgeConn true);
  _ ← emit (Handshake edgeConn);
  match tls_Handshake w edgeConn with
  | Some err =>
      mret (None, Some (newDialError err "TLS handshake with edge error"))
  | None =>
      _ ← emit (SetDeadline edgeConn false);
      mret (Some (TLSConn edgeConn), None)
  end.

(** [DialEdgeWithProxy]; [edgeTCPAddr] is what [edgeTCPAddr.String()]
    prints. The result is the Go pair [(net.Conn, error)]. The error of a
    failed SOCKS5 attempt is dropped by the empty [if err != nil] block. *)
Definition DialEdgeWithProxy (w : world) (edgeTCPAddr : string)
    (localIP : IP) (proxyURL : string) : Net (option netConn * option error) :=
  '(edgeConn, err) ←
    (if bool_decide (proxyURL ≠ "")
     then dialViaProxy w proxyURL edgeTCPAddr localIP
     else mret (None, None));
  match edgeConn with
  | None =>
      '(edgeConn, err) ← dialDirect w edgeTCPAddr localIP;
      match err with
      | Some err => mret (None, Some (newDialError err "DialContext error"))
      | None =>
          match edgeConn with
          | Some c => tlsClientHandshake w c
          | None =>
              (* not reached: a dial that reports no error hands back a
                 connection *)
              mret (None, None)
          end
      end
  | Some c => tlsClientHandshake w c
  end.

(** The SOCKS5 attempt of [dialViaProxy] fails: the proxy URL does not
    parse, the SOCKS5 dialer cannot be built, or the dial through the proxy
    fails. *)
Definition proxyAttemptFails (w : world) (proxyURL address : string)
    (localIP : IP) : Prop :=
  (∃ e, url_Parse w proxyURL = inr e) ∨
  (∃ u e, url_Parse w proxyURL = inl u ∧
          (proxy_SOCKS5 w (proxyDialerFor u localIP) = Some e ∨
           (proxy_SOCKS5 w (proxyDialerFor u localIP) = None ∧
            proxyDial w (proxyDialerFor u localIP) address = inr e))).

(** [DialEdge]. *)
Definition DialEdge (w : world) (edgeTCPAddr : string) (localIP : IP)
    : Net (option netConn * option error) :=
  DialEdgeWithProxy w edgeTCPAddr localIP "".

(** The connections a log shows opened, and those it shows closed. *)
Definition openedConns (log : list netEvent) : list conn :=
  omap (λ ev, match ev with
              | OpenedViaProxy c | OpenedDirect c => Some c
              | _ => None
              end) log.

Definition closedConns (log : list netEvent) : list conn :=
  omap (λ ev, match ev with Close c => Some c | _ => None end) log.

(** The TCP connection under a returned [net.Conn]. *)
Definition returnedConn (r : option netConn) : option conn :=
  match r with
  | Some (TCPConn c) | Some (TLSConn c) => Some c
  | None => None
  end.

(** Two worlds to run the dialer in. In the first nothing listens at the
    proxy address while the edge answers; in the second the edge accepts
    the TCP connection and then refuses the TLS handshake. *)
Definition proxyDownWorld : world :=
  {| url_Parse := λ _,
       inl {| User := None; Host := "127.0.0.1:9999";
              Hostname := "127.0.0.1"; Port := "9999" |};
     proxy_SOCKS5 := λ _, None;
     isContextDialer := λ _, true;
     socks5_DialContext := λ _ _,
       inr (mkError PlainError "dial tcp 127.0.0.1:9999: connection refused" None);
     socks5_Dial := λ _ _,
       inr (mkError PlainError "dial tcp 127.0.0.1:9999: connection refused" None);
     net_DialContext := λ _ _, inl 1%nat;
     tls_Handshake := λ _, None |}.

Definition handshakeRefusedWorld : world :=
  {| url_Parse := λ _, inr (mkError PlainError "missing protocol scheme" None);
     proxy_SOCKS5 := λ _, None;
     isContextDialer := λ _, true;
     socks5_DialContext := λ _ _, inr (mkError PlainError "no proxy" None);
     socks5_Dial := λ _ _, inr (mkError PlainError "no proxy" None);
     net_DialContext := λ _ _, inl 7%nat;
     tls_Handshake := λ _,
       Some (mkError PlainError "remote error: tls: handshake failure" None) |}.

(** ** supervisor/tunnel.go: one attempt at serving a tunnel *)

(** What the [error] model above does not carry and [serveTunnel] reads:
    the [Cause] and [Permanent] fields of a
    [connection.ServerRegisterTunnelError], whether a value is the
    [context.Canceled] sentinel, and whether its dynamic type is
    [unrecoverableError] (a [PlainError] above). *)
Record errorView : Type := mkErrorView {
  Cause : error → option error;
  Permanent : error → bool;
  isContextCanceled : error → bool;
  isUnrecoverableError : error → bool
}.

(** What a [panic] carries: an [error], or any other value, known by what
    [%v] prints for it. *)
Inductive panicValue : Set :=
  | PanicError (e : error)
  | PanicOther (printed : string).

(** How the call of [serveConnection] inside [serveTunnel] ends: it
    returns its pair, or it panics, [stack] being what [debug.Stack()]
    prints in the deferred function. *)
Inductive connOutcome : Set :=
  | Returned (err : option error) (recoverable : bool)
  | Panicked (r : panicValue) (stack : string).

(** [serveTunnel], from the outcome of [serveConnection] on; the log
    lines, [SendDisconnect] and the sleep of [DelayBeforeReconnect] are
    left out. The result is the Go pair [(err, recoverable)]. *)
Definition serveTunnel (v : errorView) (out : connOutcome)
    : option error * bool :=
  match out with
  | Panicked r stack =>
      let err :=
        match r with
        | PanicError e => e
        | PanicOther printed => mkError PlainError ("ServeTunnel: " ++ printed) None
        end in
      (Some (errors_Wrap err ("stack trace: " ++ stack)), true)
  | Returned None _ => (None, false)
  | Returned (Some err) _ =>
      match dynType err with
      | DupConnRegisterTunnelError => (Some err, false)
      | ServerRegisterTunnelError => (Cause v err, negb (Permanent v err))
      | EdgeQuicDialError => (Some err, false)
      | ReconnectSignal => (Some err, true)
      | _ =>
          if isContextCanceled v err then (Some err, false)
          else (Some err, negb (isUnrecoverableError v err))
      end
  end.

(** The [case] of the [select] at the end of [Serve] that fires. *)
Inductive serveSelect : Set :=
  | ServeCtxDone (ctxErr : error)      (* [ctx.Err()] is never nil then *)
  | ServeGracefulShutdown
  | ServeBackoffTimer.

(** What the surroundings answer during one call of [Serve]: the edge
    address store, the session, the [retry] package (not among the
    sources), the connection tracker and the protocol selector. *)
Record serveEnv : Type := mkServeEnv {
  view : errorView;
  (* the error of [e.edgeAddrs.GetAddr(connIndex)] *)
  GetAddr : option error;
  (* how [serveConnection] ends *)
  serveConnection : connOutcome;
  (* whether the control stream called [connectedFuse.Connected()] *)
  registered : bool;
  (* the error of [e.edgeAddrs.GetDifferentAddr(connIndex, true)] *)
  GetDifferentAddr : option error;
  (* the second result of [protocolFallback.GetMaxBackoffDuration(ctx)] *)
  GetMaxBackoffDuration : bool;
  (* what [protocolFallback.BackoffTimer()] does to the backoff handler *)
  BackoffTimer : retry.BackoffHandler → retry.BackoffHandler;
  fired : serveSelect;
  (* [e.tracker.HasConnectedWith(e.config.ProtocolSelector.Current())] *)
  HasConnectedWithCurrent : bool;
  ProtocolSelector : connection.ProtocolSelector
}.

(** What a call of [Serve] leaves behind: the error it returns, the edge
    address handler and the protocol fallback as it leaves them, and what
    it did to its collaborators. *)
Record serveResult : Type := mkServeResult {
  served : option error;
  handlerAfter : ipAddrFallback;
  fallbackAfter : protocolFallback;
  (* [GetDifferentAddr(connIndex, true)] was called *)
  rotated : bool;
  (* [Observer.SendReconnect(connIndex)] was called *)
  reconnectSent : bool;
  (* the fuse latched true and [connectedSignal.Notify()] ran *)
  notified : bool;
  (* [selectNextProtocol] was called *)
  protocolSelected : bool
}.

Definition withBackoffHandler (pf : protocolFallback)
    (b : retry.BackoffHandler) : protocolFallback :=
  {| BackoffHandler := b; protocol := protocol pf; inFallback := inFallback pf |}.

(** [EdgeTunnelServer.Serve], with the edge address handler and the
    protocol fallback passed in and out. *)
Definition Serve (env : serveEnv) (f : ipAddrFallback) (connIndex : Z)
    (pf : protocolFallback) : serveResult :=
  match GetAddr env with
  | Some err =>
      {| served := Some err; handlerAfter := f; fallbackAfter := pf;
         rotated := false; reconnectSent := false; notified := false;
         protocolSelected := false |}
  | None =>
      (* [connectedFuse.Connected()] runs [protocolFallback.reset()] *)
      let pf := if registered env then reset pf else pf in
      let '(err, shouldFallbackProtocol) := serveTunnel (view env) (serveConnection env) in
      let '(f, (shouldRotateEdgeIP, cErr)) := ShouldGetNewAddress f connIndex err in
      let stop (ret : option error) (rot sent : bool) :=
        {| served := ret; handlerAfter := f; fallbackAfter := pf;
           rotated := rot; reconnectSent := sent; notified := registered env;
           protocolSelected := false |} in
      match (if shouldRotateEdgeIP then GetDifferentAddr env else None) with
      | Some err' => stop (Some err') true false
      | None =>
          let shouldFallbackProtocol :=
            if shouldRotateEdgeIP then
              match cErr with
              | Some connectivityErr => HasReachedMaxRetries connectivityErr
              | None => shouldFallbackProtocol
              end
            else shouldFallbackProtocol in
          if negb (GetMaxBackoffDuration env) then stop err shouldRotateEdgeIP false
          else
            (* the operands of the [select] are evaluated on entry *)
            let pf := withBackoffHandler pf (BackoffTimer env (BackoffHandler pf)) in
            let leave (ret : option error) (pf : protocolFallback) (sel : bool) :=
              {| served := ret; handlerAfter := f; fallbackAfter := pf;
                 rotated := shouldRotateEdgeIP; reconnectSent := true;
                 notified := registered env; protocolSelected := sel |} in
            match fired env with
            | ServeCtxDone ctxErr => leave (Some ctxErr) pf false
            | ServeGracefulShutdown => leave None pf false
            | ServeBackoffTimer =>
                if negb shouldFallbackProtocol then leave err pf false
                else if HasConnectedWithCurrent env then leave err pf false
                else
                  leave err (selectNextProtocol pf (ProtocolSelector env) err).1 true
            end
      end
  end.

(** ** supervisor/supervisor.go: [initialize] and the whole of [Run] *)

(** The [case] of the [select] in [initialize] that fires once the first
    tunnel has been launched. *)
Inductive initSelect : Set :=
  | InitCtxDone (ctxErr : error)
  | InitTunnelError (err : option error)
  | InitGracefulShutdown
  | InitConnected.

(** What [initialize] returns when it does not return nil. [errEarlyShutdown]
    is a sentinel that [Run] compares by identity. *)
Inductive initError : Set :=
  | errEarlyShutdown
  | InitFailed (err : error).

(** What the surroundings answer during [initialize]. The map
    [tunnelsProtocolFallback] holds pointers, and the first tunnel, which
    runs in its own goroutine, works on the [protocolFallback] that entry 0
    points to while [initialize] goes on: [Serve] resets it, falls back on
    it and runs its backoff. [firstFallbackAt i] is what entry 0 points to
    when the loop seeds sibling [i], and [firstFallbackAtReturn] what it
    points to when [initialize] returns. *)
Record initEnv : Type := mkInitEnv {
  AvailableAddrs : Z;
  Retries : N;
  selectorCurrent : connection.Protocol;
  initFired : initSelect;
  firstFallbackAt : Z → protocolFallback;
  firstFallbackAtReturn : protocolFallback
}.

Record initResult : Type := mkInitResult {
  initReturned : option initError;
  (* what entry 0 points to when [go s.startFirstTunnel] is launched *)
  initFirstTunnel : protocolFallback;
  initSupervisor : Supervisor;
  (* [s.config.HAConnections] as [initialize] leaves it *)
  initHAConnections : Z;
  (* the siblings launched with [go s.startTunnel], oldest first *)
  initStarted : list (Z * chan)
}.

Definition setProtocolFallback (s : Supervisor) (i : Z) (pf : protocolFallback)
    : Supervisor :=
  {| tunnelsConnecting := tunnelsConnecting s;
     tunnelsProtocolFallback := <[i := pf]> (tunnelsProtocolFallback s);
     nextConnectedIndex := nextConnectedIndex s;
     nextConnectedSignal := nextConnectedSignal s;
     chansMade := chansMade s |}.

(** [n] passes of [for i := ...; i < s.config.HAConnections; i++], from
    index [i] on. Each pass reads [s.tunnelsProtocolFallback[0].protocol]
    from what the first tunnel has made of entry 0 by then. *)
Fixpoint startSiblings (env : initEnv) (n : nat) (i : Z) (s : Supervisor)
    (launched : list (Z * chan)) : Supervisor * list (Z * chan) :=
  match n with
  | O => (s, launched)
  | S n' =>
      let s := setProtocolFallback s 0 (firstFallbackAt env i) in
      let first := default (firstFallbackAt env i)
                     (tunnelsProtocolFallback s !! 0) in
      let s := setProtocolFallback s i
                 {| BackoffHandler := retry.NewBackoff (Retries env);
                    protocol := protocol first;
                    inFallback := false |} in
      let '(s, sig) := newConnectedTunnelSignal s i in
      startSiblings env n' (i + 1) s (launched ++ [(i, sig)])
  end.

(** [initialize], with the supervisor and [config.HAConnections] passed in
    and out. *)
Definition initialize (env : initEnv) (s : Supervisor) (HAConnections : Z)
    : initResult :=
  let HAConnections :=
    if AvailableAddrs env <? HAConnections then AvailableAddrs env
    else HAConnections in
  let first :=
    {| BackoffHandler := retry.NewBackoff (Retries env);
       protocol := selectorCurrent env;
       inFallback := false |} in
  let s := setProtocolFallback s 0 first in
  (* the supervisor as [initialize] leaves it, entry 0 pointing to what
     the first tunnel has made of it *)
  let returned (s : Supervisor) :=
    setProtocolFallback s 0 (firstFallbackAtReturn env) in
  let early (ret : option initError) :=
    {| initReturned := ret; initFirstTunnel := first;
       initSupervisor := returned s;
       initHAConnections := HAConnections; initStarted := [] |} in
  match initFired env with
  | InitCtxDone ctxErr => early (Some (InitFailed ctxErr))
  | InitTunnelError err => early (InitFailed <$> err)
  | InitGracefulShutdown => early (Some errEarlyShutdown)
  | InitConnected =>
      let '(s, launched) :=
        startSiblings env (Z.to_nat (HAConnections - 1)) 1 s [] in
      {| initReturned := None; initFirstTunnel := first;
         initSupervisor := returned s;
         initHAConnections := HAConnections; initStarted := launched |}
  end.

(** The events the loop of [Run] meets, each with what the surroundings
    answer during that iteration, run one after the other until the loop
    returns or blocks. *)
Fixpoint runEvents (st : runState) (evs : list (runEnv * runEvent)) : runStep :=
  match evs with
  | [] => Continue st
  | (env, ev) :: rest =>
      match runIteration env st ev with
      | Continue st' => runEvents st' rest
      | stopped => stopped
      end
  end.

(** The local variables of [Run] when it enters its loop. *)
Definition runStart (r : initResult) : runState :=
  {| sup := initSupervisor r;
     tunnelsWaiting := [];
     tunnelsActive := initHAConnections r;
     backoffTimer := None;
     shuttingDown := false;
     started := initStarted r;
     backoffTimerCalls := 0;
     setGracePeriodCalls := 0 |}.

(** How [Run] ends, or where it stands after the events it was given. *)
Definition Run (env : initEnv) (HAConnections : Z)
    (evs : list (runEnv * runEvent)) : runStep + option error :=
  let r := initialize env NewSupervisor HAConnections in
  match initReturned r with
  | Some errEarlyShutdown => inr None
  | Some (InitFailed err) => inr (Some err)
  | None => inl (runEvents (runStart r) evs)
  end.

(** Invariants of the loop of [Run]. The timer is armed exactly while
    tunnels wait for it. *)
Definition timerMatchesWaiting (st : runState) : Prop :=
  tunnelsWaiting st = [] ↔ backoffTimer st = None.

(** The supervisor awaits nothing exactly when nothing is connecting, and
    otherwise awaits the signal of a tunnel that is connecting. *)
Definition awaitsConnecting (s : Supervisor) : Prop :=
  match nextConnectedSignal s with
  | None => tunnelsConnecting s = ∅
  | Some sig => tunnelsConnecting s !! nextConnectedIndex s = Some sig
  end.

(** Every channel in [tunnelsConnecting] was made before, and no two
    indices share one. *)
Definition signalsDistinct (s : Supervisor) : Prop :=
  (∀ i sig, tunnelsConnecting s !! i = Some sig → (sig < chansMade s)%positive) ∧
  (∀ i j sig, tunnelsConnecting s !! i = Some sig →
              tunnelsConnecting s !! j = Some sig → i = j).

(** An environment to run [Serve] in: every error is an ordinary one, the
    edge address store always answers, retries are left, the backoff timer
    fires, and no tunnel has connected yet; the selector prefers QUIC and
    falls back to HTTP2. [out] is how the session ends. *)
Definition plainView : errorView :=
  {| Cause := λ _, None;
     Permanent := λ _, false;
     isContextCanceled := λ _, false;
     isUnrecoverableError := λ _, false |}.

Definition quicBlockedEnv (out : connOutcome) : serveEnv :=
  {| view := plainView;
     GetAddr := None;
     serveConnection := out;
     registered := false;
     GetDifferentAddr := None;
     GetMaxBackoffDuration := true;
     BackoffTimer := λ b,
       {| retry.maxRetries := retry.maxRetries b;
          retry.retries := retry.retries b + 1 |};
     fired := ServeBackoffTimer;
     HasConnectedWithCurrent := false;
     ProtocolSelector :=
       {| connection.Current := connection.QUIC;
          connection.Fallback := (connection.HTTP2, true) |} |}.

(** * Properties *)

(** ** The Go values *)

Example strings_Contains_inside :
  strings_Contains "rpc error: Unauthorized: Invalid tunnel secret" "Unauthorized"
  = true.
Proof. reflexivity. Qed.

Example strings_Contains_absent :
  strings_Contains "timeout: no recent network activity" "Unauthorized" = false.
Proof. reflexivity. Qed.

Example errors_As_wrapped :
  errors_As
    (Some (errors_Wrap (mkError TransportError "sendmsg: operation not permitted" None)
             "failed to dial to edge with quic"))
    TransportError = true.
Proof. reflexivity. Qed.

Example isQuicBroken_wrapped_transport_error :
  isQuicBroken
    (Some (errors_Wrap (mkError TransportError "sendmsg: operation not permitted" None)
             "failed to dial to edge with quic")) = true.
Proof. reflexivity. Qed.

Example isQuicBroken_nil : isQuicBroken None = false.
Proof. reflexivity. Qed.

(** ** The edge-address handler *)

Section ipAddrFallback_facts.

Implicit Types (f : ipAddrFallback) (i j v : Z) (err : option error).

Lemma retriesOf_setRetries_eq f i v : retriesOf (setRetries f i v) i = v.
Proof. unfold retriesOf, setRetries; simpl. by rewrite lookup_insert_eq. Qed.

Lemma retriesOf_setRetries_ne f i j v :
  i ≠ j → retriesOf (setRetries f i v) j = retriesOf f j.
Proof.
  intros Hne. unfold retriesOf, setRetries; simpl.
  by rewrite lookup_insert_ne.
Qed.

Lemma retriesOf_wf f i : ipAddrFallback_wf f → is_uint8 (retriesOf f i).
Proof.
  intros [_ Hm]. unfold retriesOf.
  destruct (retriesByConnIndex f !! i) as [v|] eqn:Hi; simpl.
  - by apply (Hm i v).
  - unfold is_uint8; lia.
Qed.

Lemma ShouldGetNewAddress_other_error f i err :
  isDialFailure err = false → (ShouldGetNewAddress f i err).1 = f.
Proof.
  destruct err as [[ty msg inner]|]; [|done].
  by destruct ty.
Qed.

Lemma ShouldGetNewAddress_maxRetries f i err :
  maxRetries (ShouldGetNewAddress f i err).1 = maxRetries f.
Proof.
  destruct err as [[ty msg inner]|]; [|done].
  destruct ty; simpl; try done; by case_match.
Qed.

Lemma ShouldGetNewAddress_frame f i j err :
  i ≠ j →
  retriesByConnIndex (ShouldGetNewAddress f i err).1 !! j
  = retriesByConnIndex f !! j.
Proof.
  intros Hne. destruct err as [[ty msg inner]|]; [|done].
  destruct ty; simpl; try done;
    case_match; simpl; by rewrite lookup_insert_ne.
Qed.

Lemma NewIPAddrFallback_bounded (m : Z) :
  0 <= m → retriesBounded (NewIPAddrFallback m).
Proof.
  intros Hm i. unfold retriesOf, NewIPAddrFallback; simpl.
  rewrite lookup_empty; simpl. lia.
Qed.

Lemma ShouldGetNewAddress_bounded f i err :
  retriesBounded f → retriesBounded (ShouldGetNewAddress f i err).1.
Proof.
  intros Hb j. rewrite ShouldGetNewAddress_maxRetries.
  destruct (isDialFailure err) eqn:Hd.
  - destruct err as [[ty msg inner]|]; [|done].
    pose proof (Hb i) as Hi. pose proof (Hb j) as Hj.
    assert (Hcase :
      (ShouldGetNewAddress f i (Some (mkError ty msg inner))).1 =
      if maxRetries f <=? retriesOf f i
      then setRetries f i 0
      else setRetries f i (uint8 (retriesOf f i + 1))).
    { destruct ty; simpl in *; try done; by case_match. }
    rewrite Hcase. clear Hcase.
    destruct (Z.leb_spec (maxRetries f) (retriesOf f i)) as [Hle|Hlt];
      destruct (decide (i = j)) as [->|Hne];
      rewrite ?retriesOf_setRetries_eq, ?retriesOf_setRetries_ne by done;
      try lia.
    unfold uint8.
    pose proof (Z.mod_pos_bound (retriesOf f j + 1) 256 ltac:(lia)).
    pose proof (Z.mod_le (retriesOf f j + 1) 256 ltac:(lia) ltac:(lia)).
    lia.
  - rewrite ShouldGetNewAddress_other_error by done. apply Hb.
Qed.

Lemma ShouldGetNewAddress_seq_bounded f calls :
  retriesBounded f → retriesBounded (ShouldGetNewAddress_seq f calls).
Proof.
  revert f. induction calls as [|[i err] rest IH]; intros f Hb; simpl.
  - done.
  - apply IH. by apply ShouldGetNewAddress_bounded.
Qed.

Lemma ShouldGetNewAddress_seq_maxRetries f calls :
  maxRetries (ShouldGetNewAddress_seq f calls) = maxRetries f.
Proof.
  revert f. induction calls as [|[i err] rest IH]; intros f; simpl.
  - done.
  - by rewrite IH, ShouldGetNewAddress_maxRetries.
Qed.

End ipAddrFallback_facts.

(** C3. The decision table of [ShouldGetNewAddress(i, err)]: a nil error
    asks for no rotation and gives no connectivity error; a
    [DupConnRegisterTunnelError] or [*quic.IdleTimeoutError] asks for a
    rotation and gives no connectivity error; a [DialError] or
    [*EdgeQuicDialError] asks for a rotation and gives a
    [ConnectivityError] whose flag is (stored count for [i] >= maxRetries),
    the count being incremented when the flag is false and being zero
    afterwards exactly when the flag is true; every other error asks for
    nothing. *)
Theorem ShouldGetNewAddress_decision_table
    (f : ipAddrFallback) (i : Z) (err : option error) :
  ipAddrFallback_wf f →
  let r := ShouldGetNewAddress f i err in
  let reachedMax := bool_decide (maxRetries f <= retriesOf f i) in
  (err = None → r = (f, (false, None))) ∧
  (∀ e, err = Some e →
     dynType e ∈ [DupConnRegisterTunnelError; IdleTimeoutError] →
     r = (f, (true, None))) ∧
  (∀ e, err = Some e →
     dynType e ∈ [DialError; EdgeQuicDialError] →
     r.2 = (true, Some (NewConnectivityError reachedMax)) ∧
     (reachedMax = false → retriesOf r.1 i = retriesOf f i + 1) ∧
     (retriesOf r.1 i = 0 ↔ reachedMax = true)) ∧
  (∀ e, err = Some e →
     dynType e ∉ [DupConnRegisterTunnelError; IdleTimeoutError;
                  DialError; EdgeQuicDialError] →
     r = (f, (false, None))).
Proof.
  intros Hwf r reachedMax. subst r.
  split; [by intros ->|].
  split.
  { intros [ty msg inner] -> Hty; simpl in Hty.
    set_unfold in Hty. by destruct Hty as [->|[->|[]]]. }
  split.
  { intros [ty msg inner] -> Hty; simpl in Hty.
    pose proof (retriesOf_wf f i Hwf) as [Hlo Hhi].
    destruct Hwf as [[Hm0 Hm1] _].
    assert (Hcase :
      ShouldGetNewAddress f i (Some (mkError ty msg inner)) =
      if maxRetries f <=? retriesOf f i
      then (setRetries f i 0, (true, Some (NewConnectivityError true)))
      else (setRetries f i (uint8 (retriesOf f i + 1)),
            (true, Some (NewConnectivityError false)))).
    { set_unfold in Hty. by destruct Hty as [->|[->|[]]]. }
    rewrite Hcase. clear Hcase. subst reachedMax.
    destruct (Z.leb_spec (maxRetries f) (retriesOf f i)) as [Hle|Hlt]; simpl;
      rewrite retriesOf_setRetries_eq.
    - rewrite bool_decide_eq_true_2 by done. done.
    - rewrite bool_decide_eq_false_2 by lia.
      assert (uint8 (retriesOf f i + 1) = retriesOf f i + 1) as ->.
      { unfold uint8. apply Z.mod_small. lia. }
      split; [done|]. split; [done|]. split; [lia|done]. }
  intros [ty msg inner] -> Hty; simpl in Hty.
  set_unfold in Hty.
  destruct ty; simpl; try done; exfalso; apply Hty; tauto.
Qed.

(** C3, at a handler that has used both of its two retries for index 3. *)
Lemma ShouldGetNewAddress_decision_table_witness :
  let f := {| retriesByConnIndex := {[3 := 2]}; maxRetries := 2 |} in
  ipAddrFallback_wf f ∧
  (ShouldGetNewAddress f 3 (Some (mkError DialError "dial tcp: timeout" None))).2
  = (true, Some (NewConnectivityError true)).
Proof.
  intros f.
  assert (Hwf : ipAddrFallback_wf f).
  { split; [unfold is_uint8; simpl; lia|].
    intros i v Hv. subst f; simpl in Hv.
    apply lookup_singleton_Some in Hv as [<- <-]. unfold is_uint8; lia. }
  split; [exact Hwf|].
  pose proof (ShouldGetNewAddress_decision_table f 3
                (Some (mkError DialError "dial tcp: timeout" None)) Hwf)
    as (_ & _ & Hdial & _).
  assert (Hty : DialError ∈ [DialError; EdgeQuicDialError]) by constructor.
  exact (proj1 (Hdial _ eq_refl Hty)).
Defined.

(** C10. [ShouldGetNewAddress(i, err)] leaves the counters of all indices
    other than [i] alone, changes nothing at all unless [err] is a
    [DialError] or [*EdgeQuicDialError], and after any sequence of calls on
    a fresh handler no stored counter exceeds [maxRetries]. *)
Theorem ShouldGetNewAddress_frame_and_bound (maxR : Z) :
  is_uint8 maxR →
  (∀ f i j err, i ≠ j →
     retriesByConnIndex (ShouldGetNewAddress f i err).1 !! j
     = retriesByConnIndex f !! j) ∧
  (∀ f i err, isDialFailure err = false →
     (ShouldGetNewAddress f i err).1 = f) ∧
  (∀ calls i v,
     retriesByConnIndex (ShouldGetNewAddress_seq (NewIPAddrFallback maxR) calls) !! i
     = Some v →
     v <= maxR).
Proof.
  intros [Hm _].
  split; [apply ShouldGetNewAddress_frame|].
  split; [apply ShouldGetNewAddress_other_error|].
  intros calls i v Hv.
  pose proof (ShouldGetNewAddress_seq_bounded _ calls
                (NewIPAddrFallback_bounded maxR Hm) i) as Hb.
  rewrite ShouldGetNewAddress_seq_maxRetries in Hb.
  unfold retriesOf in Hb. rewrite Hv in Hb. simpl in Hb. lia.
Qed.

(** C10, for a handler allowing one retry that sees three dial errors on
    index 0. *)
Lemma ShouldGetNewAddress_frame_and_bound_witness :
  is_uint8 1 ∧
  ∀ v,
    retriesByConnIndex
      (ShouldGetNewAddress_seq (NewIPAddrFallback 1)
         [(0, Some (mkError DialError "e" None));
          (0, Some (mkError EdgeQuicDialError "e" None));
          (0, Some (mkError DialError "e" None))]) !! 0 = Some v →
    v <= 1.
Proof.
  assert (H1 : is_uint8 1) by (unfold is_uint8; lia).
  split; [exact H1|].
  intros v.
  destruct (ShouldGetNewAddress_frame_and_bound 1 H1) as (_ & _ & Hb).
  apply Hb.
Defined.

(** ** Protocol fallback *)

Section protocolFallback_facts.

Implicit Types (pf : protocolFallback) (p : connection.Protocol)
  (selector : connection.ProtocolSelector) (cause : option error).

Lemma isQuicBroken_spec cause :
  isQuicBroken cause = true ↔
  errors_As cause IdleTimeoutError = true ∨
  (errors_As cause TransportError = true ∧
   ∃ e, cause = Some e ∧
        strings_Contains (Error e) "operation not permitted" = true).
Proof.
  unfold isQuicBroken.
  destruct (errors_As cause IdleTimeoutError); [naive_solver|].
  destruct (errors_As cause TransportError); simpl; [|naive_solver].
  destruct cause as [e|]; [|naive_solver].
  destruct (strings_Contains (Error e) "operation not permitted") eqn:Hc;
    naive_solver.
Qed.

Lemma fallbackGuard_same_backoff pf pf' selector cause :
  BackoffHandler pf' = BackoffHandler pf →
  fallbackGuard pf' selector cause = fallbackGuard pf selector cause.
Proof. unfold fallbackGuard, ReachedMaxRetries. by intros ->. Qed.

(** The three outcomes of [selectNextProtocol], by cases on the guard. *)
Lemma selectNextProtocol_cases pf selector cause :
  let alt := (connection.Fallback selector).1 in
  let hasFallback := (connection.Fallback selector).2 in
  selectNextProtocol pf selector cause =
  if fallbackGuard pf selector cause then
    if negb hasFallback || bool_decide (protocol pf = alt) then (pf, false)
    else (fallback pf alt, true)
  else if inFallback pf then (pf, true)
  else ({| BackoffHandler := BackoffHandler pf;
           protocol := connection.Current selector;
           inFallback := false |}, true).
Proof.
  unfold selectNextProtocol, fallbackGuard.
  destruct selector as [cur [alt has]]; simpl.
  destruct (ReachedMaxRetries pf || has && isQuicBroken cause).
  - destruct has; simpl; [|done]. by case_bool_decide.
  - destruct pf as [b p [|]]; simpl; [done|].
    case_bool_decide as Hp; [done|]. by subst.
Qed.

End protocolFallback_facts.

(** C2. [selectNextProtocol] returns false exactly when the guard
    ([ReachedMaxRetries()], or a fallback exists and the cause is a QUIC
    idle timeout or a QUIC transport error whose message contains
    "operation not permitted") holds and the selector has no fallback or
    the protocol already is the fallback; when the guard holds and the
    fallback differs it performs [fallback(alt)] and returns true; when the
    guard fails and [inFallback] is false it leaves the protocol at
    [selector.Current()] and returns true. *)
Theorem selectNextProtocol_spec
    (pf : protocolFallback) (selector : connection.ProtocolSelector)
    (cause : option error) :
  let alt := (connection.Fallback selector).1 in
  let hasFallback := (connection.Fallback selector).2 in
  let guard :=
    ReachedMaxRetries pf = true ∨
    (hasFallback = true ∧
     (errors_As cause IdleTimeoutError = true ∨
      (errors_As cause TransportError = true ∧
       ∃ e, cause = Some e ∧
            strings_Contains (Error e) "operation not permitted" = true))) in
  let r := selectNextProtocol pf selector cause in
  (r.2 = false ↔ guard ∧ (hasFallback = false ∨ protocol pf = alt)) ∧
  (r.2 = false → r.1 = pf) ∧
  (guard → hasFallback = true → protocol pf ≠ alt →
   r = (fallback pf alt, true)) ∧
  (¬ guard → inFallback pf = false →
   r.2 = true ∧
   protocol r.1 = connection.Current selector ∧
   inFallback r.1 = false ∧
   BackoffHandler r.1 = BackoffHandler pf) ∧
  (¬ guard → inFallback pf = true → r = (pf, true)).
Proof.
  intros alt hasFallback guard r.
  assert (Hg : fallbackGuard pf selector cause = true ↔ guard).
  { unfold fallbackGuard, guard. fold hasFallback.
    rewrite orb_true_iff, andb_true_iff, isQuicBroken_spec. done. }
  subst r. rewrite selectNextProtocol_cases. fold alt hasFallback.
  destruct (fallbackGuard pf selector cause) eqn:Hfg.
  - assert guard as HG by (by apply Hg).
    destruct hasFallback eqn:Hhas; simpl.
    + case_bool_decide as Hp; simpl; naive_solver.
    + naive_solver.
  - assert (¬ guard) as HG by (rewrite <- Hg; congruence).
    destruct (inFallback pf) eqn:Hin; simpl; naive_solver.
Qed.

(** C6 fails as stated: with QUIC current, HTTP2 as fallback and a QUIC idle
    timeout as cause, the first run switches to HTTP2 and returns true; the
    second run, started from that state, finds the protocol already on the
    fallback and returns false. *)
Lemma selectNextProtocol_twice_differs :
  let pf := {| BackoffHandler := retry.NewBackoff 5;
               protocol := connection.QUIC;
               inFallback := false |} in
  let selector := {| connection.Current := connection.QUIC;
                     connection.Fallback := (connection.HTTP2, true) |} in
  let cause := Some (mkError IdleTimeoutError
                       "timeout: no recent network activity" None) in
  let once := selectNextProtocol pf selector cause in
  let twice := selectNextProtocol once.1 selector cause in
  once.2 = true ∧ twice.2 = false ∧ ¬ (twice = once).
Proof. vm_compute. split; [done|]. split; [done|]. intros H; discriminate H. Qed.

(** C6, amended. A second run of [selectNextProtocol] from the state the
    first one produced leaves that state (backoff, protocol, inFallback) as
    it is. It returns what the first run returned, except when the first
    run switched to the fallback protocol and the guard still holds in the
    new state: then the first run returned true and the second returns
    false. *)
Theorem selectNextProtocol_twice
    (pf : protocolFallback) (selector : connection.ProtocolSelector)
    (cause : option error) :
  let once := selectNextProtocol pf selector cause in
  let twice := selectNextProtocol once.1 selector cause in
  twice.1 = once.1 ∧
  (twice.2 = false ↔
   once.2 = false ∨
   (fallbackGuard pf selector cause = true ∧
    fallbackGuard once.1 selector cause = true)).
Proof.
  intros once twice. subst twice once.
  rewrite (selectNextProtocol_cases pf).
  destruct (fallbackGuard pf selector cause) eqn:Hg.
  - destruct (negb (connection.Fallback selector).2
              || bool_decide (protocol pf = (connection.Fallback selector).1))
      eqn:Hstop; simpl.
    + rewrite selectNextProtocol_cases, Hg, Hstop. simpl. naive_solver.
    + rewrite selectNextProtocol_cases. simpl.
      apply orb_false_iff in Hstop as [Hhas _]. rewrite Hhas. simpl.
      rewrite bool_decide_eq_true_2 by done.
      destruct (fallbackGuard (fallback pf (connection.Fallback selector).1)
                  selector cause); simpl; naive_solver.
  - destruct (inFallback pf) eqn:Hin; simpl.
    + rewrite selectNextProtocol_cases, Hg, Hin. simpl. naive_solver.
    + rewrite selectNextProtocol_cases. simpl.
      rewrite (fallbackGuard_same_backoff pf) by done.
      rewrite Hg. simpl. naive_solver.
Qed.

(** What the code of [reset] and [fallback] shows: [reset()] clears the
    in-fallback flag and keeps the protocol; [fallback(p)] sets the flag and
    the protocol [p]; each hands the backoff handler to [ResetNow]. *)
Lemma reset_fallback_fields (pf : protocolFallback) (p : connection.Protocol) :
  (inFallback (reset pf) = false ∧
   protocol (reset pf) = protocol pf ∧
   BackoffHandler (reset pf) = retry.ResetNow (BackoffHandler pf)) ∧
  (inFallback (fallback pf p) = true ∧
   protocol (fallback pf p) = p ∧
   BackoffHandler (fallback pf p) = retry.ResetNow (BackoffHandler pf)).
Proof. by destruct pf. Qed.

(** ** The connecting set *)

Section waitForNextTunnel_facts.

Implicit Types (m : gmap Z chan) (s : Supervisor) (order : nat).

Lemma range_first_None m order : range_first m order = None ↔ m = ∅.
Proof.
  unfold range_first. rewrite <- map_to_list_empty_iff.
  destruct (map_to_list m) as [|kv l] eqn:Hl; [done|].
  split; [|done]. intros Hnone. exfalso.
  apply lookup_ge_None in Hnone.
  pose proof (Nat.mod_upper_bound order (length (kv :: l)) ltac:(done)).
  lia.
Qed.

Lemma range_first_Some m order k v :
  range_first m order = Some (k, v) → m !! k = Some v.
Proof.
  unfold range_first. intros Hl.
  apply elem_of_map_to_list. by eapply list_elem_of_lookup_2.
Qed.

(** Every entry of the map is the first one of some iteration order. *)
Lemma range_first_any m k v :
  m !! k = Some v → ∃ order, range_first m order = Some (k, v).
Proof.
  intros Hkv. apply elem_of_map_to_list, list_elem_of_lookup_1 in Hkv
    as [n Hn].
  exists n. unfold range_first.
  rewrite Nat.mod_small; [done|]. by eapply lookup_lt_Some.
Qed.

End waitForNextTunnel_facts.

(** C7 fails as stated: after tunnels 1 and 2 have been launched the
    supervisor awaits tunnel 2; [waitForNextTunnel(0)], for the first tunnel
    that never enters [tunnelsConnecting], may then pick tunnel 1 to await,
    changing [nextConnectedIndex] and [nextConnectedSignal]. *)
Lemma waitForNextTunnel_absent_changes_next :
  let s := (newConnectedTunnelSignal
              (newConnectedTunnelSignal NewSupervisor 1).1 2).1 in
  let r := waitForNextTunnel 1 s 0 in
  tunnelsConnecting s !! 0 = None ∧
  (nextConnectedIndex s, nextConnectedSignal s) = (2, Some 2%positive) ∧
  (nextConnectedIndex r.1, nextConnectedSignal r.1) = (1, Some 1%positive) ∧
  ¬ (r.1 = s).
Proof.
  vm_compute. repeat split. intros H. discriminate H.
Qed.

(** C7, amended. [waitForNextTunnel(i)] for an [i] that is not in
    [tunnelsConnecting] leaves [tunnelsConnecting] as it is and returns
    false exactly when it is empty. When it returns false,
    [nextConnectedSignal] is nil and [nextConnectedIndex] is unchanged; when
    it returns true, [nextConnectedIndex] and [nextConnectedSignal] are set
    to an entry of [tunnelsConnecting], which need not be the one awaited
    before. *)
Theorem waitForNextTunnel_absent (order : nat) (s : Supervisor) (i : Z) :
  tunnelsConnecting s !! i = None →
  let r := waitForNextTunnel order s i in
  tunnelsConnecting r.1 = tunnelsConnecting s ∧
  (r.2 = false ↔ tunnelsConnecting s = ∅) ∧
  (r.2 = false →
   nextConnectedSignal r.1 = None ∧
   nextConnectedIndex r.1 = nextConnectedIndex s) ∧
  (r.2 = true →
   ∃ v, nextConnectedSignal r.1 = Some v ∧
        tunnelsConnecting s !! nextConnectedIndex r.1 = Some v).
Proof.
  intros Hi r. subst r. unfold waitForNextTunnel.
  rewrite (delete_id _ _ Hi).
  destruct (range_first (tunnelsConnecting s) order) as [[k v]|] eqn:Hr; simpl.
  - pose proof (range_first_Some _ _ _ _ Hr) as Hkv.
    repeat split; try done.
    + intros Hempty. rewrite Hempty, lookup_empty in Hkv. done.
    + intros _. by exists v.
  - apply range_first_None in Hr. repeat split; try done.
Qed.

(** C7, amended, on the supervisor that awaits tunnels 1 and 2. *)
Lemma waitForNextTunnel_absent_witness :
  let s := (newConnectedTunnelSignal
              (newConnectedTunnelSignal NewSupervisor 1).1 2).1 in
  tunnelsConnecting s !! 0 = None ∧
  tunnelsConnecting (waitForNextTunnel 1 s 0).1 = tunnelsConnecting s.
Proof.
  intros s.
  assert (Hi : tunnelsConnecting s !! 0 = None) by (vm_compute; reflexivity).
  split; [exact Hi|].
  exact (proj1 (waitForNextTunnel_absent 1 s 0 Hi)).
Defined.

(** ** The steady-state loop *)

(** C9. When the loop of [Run] receives a [tunnelError] for index [i] that
    carries a [ReconnectSignal] and shutdown has not started, it launches
    the tunnel for [i] again at once and goes round: [i] is not appended to
    [tunnelsWaiting], and the shared backoff timer is neither started nor
    touched. *)
Theorem runIteration_ReconnectSignal
    (env : runEnv) (st : runState) (i : Z) (e : error) :
  dynType e = ReconnectSignal →
  shuttingDown st = false →
  ∃ st',
    runIteration env st (TunnelError i (Some e)) = Continue st' ∧
    started st' = (started st ++ [(i, chansMade (sup st))])%list ∧
    tunnelsWaiting st' = tunnelsWaiting st ∧
    backoffTimer st' = backoffTimer st ∧
    backoffTimerCalls st' = backoffTimerCalls st ∧
    tunnelsActive st' = tunnelsActive st ∧
    shuttingDown st' = false ∧
    tunnelsConnecting (sup st') !! i = Some (chansMade (sup st)) ∧
    nextConnectedIndex (sup st') = i ∧
    nextConnectedSignal (sup st') = Some (chansMade (sup st)).
Proof.
  intros Hty Hdown. eexists. split.
  - unfold runIteration. simpl. rewrite Hdown. simpl.
    unfold hasReconnectSignalType. rewrite bool_decide_eq_true_2 by done.
    reflexivity.
  - simpl. rewrite lookup_insert_eq.
    repeat split; try done. lia.
Qed.

(** C9, for a loop with tunnel 1 waiting for the timer when tunnel 2
    reports a [ReconnectSignal]. *)
Lemma runIteration_ReconnectSignal_witness :
  let e := mkError ReconnectSignal "reconnect signal" None in
  let st := {| sup := NewSupervisor; tunnelsWaiting := [1];
               tunnelsActive := 3; backoffTimer := Some 0%nat;
               shuttingDown := false; started := [];
               backoffTimerCalls := 1; setGracePeriodCalls := 0 |} in
  let env := {| moreRetries := λ _, true; rangeOrder := 0 |} in
  dynType e = ReconnectSignal ∧
  shuttingDown st = false ∧
  ∃ st', runIteration env st (TunnelError 2 (Some e)) = Continue st' ∧
         started st' = [(2, 1%positive)] ∧
         tunnelsWaiting st' = [1].
Proof.
  intros e st env.
  split; [reflexivity|]. split; [reflexivity|].
  destruct (runIteration_ReconnectSignal env st 2 e eq_refl eq_refl)
    as (st' & Hstep & Hstarted & Hwaiting & _).
  exists st'. split; [exact Hstep|]. split; [exact Hstarted|exact Hwaiting].
Defined.

(** ** The first tunnel *)





(** ** The edge dialer *)

Section dial_facts.

Context (w : world).
Implicit Types (address proxyURL : string) (localIP : IP)
  (log : list netEvent) (c : conn).

(** A failed SOCKS5 attempt hands back no connection and opens none. *)
Lemma dialViaProxy_failed proxyURL address localIP log :
  (dialViaProxy w proxyURL address localIP log).1.2 ≠ None →
  (dialViaProxy w proxyURL address localIP log).1.1 = None ∧
  (dialViaProxy w proxyURL address localIP log).2 = log.
Proof.
  unfold dialViaProxy.
  destruct (url_Parse w proxyURL) as [u|e]; [|done].
  destruct (proxy_SOCKS5 w _) as [e|]; [done|].
  unfold mbind, Net_bind, opened.
  destruct (proxyDial w _ address) as [c|e]; simpl; done.
Qed.

(** The three ways the SOCKS5 attempt fails: the proxy URL does not parse,
    the SOCKS5 dialer cannot be built, or the dial through the proxy
    fails. *)
Lemma dialViaProxy_failure_reasons proxyURL address localIP log :
  (dialViaProxy w proxyURL address localIP log).1.2 ≠ None ↔
  proxyAttemptFails w proxyURL address localIP.
Proof.
  unfold dialViaProxy, proxyAttemptFails.
  destruct (url_Parse w proxyURL) as [u|e]; [|naive_solver].
  destruct (proxy_SOCKS5 w (proxyDialerFor u localIP)) as [e|] eqn:Hmk;
    [naive_solver|].
  unfold mbind, Net_bind, opened.
  destruct (proxyDial w (proxyDialerFor u localIP) address) as [c|e] eqn:Hdial;
    simpl.
  - split; [done|].
    intros [[e He]|(u0 & e & Hu & [H|[_ H]])]; [done| |];
      injection Hu as <-; congruence.
  - split; [|done]. intros _. right. exists u, e. auto.
Qed.

(** The handshake step, run on a log. *)
Lemma tlsClientHandshake_run c log :
  tlsClientHandshake w c log =
  match tls_Handshake w c with
  | Some e =>
      ((None, Some (newDialError e "TLS handshake with edge error")),
       (log ++ [SetDeadline c true; Handshake c])%list)
  | None =>
      ((Some (TLSConn c), None),
       (log ++ [SetDeadline c true; Handshake c; SetDeadline c false])%list)
  end.
Proof.
  unfold tlsClientHandshake, mbind, Net_bind, emit; simpl.
  destruct (tls_Handshake w c) as [e|]; simpl; by rewrite <- ?app_assoc.
Qed.

(** What [DialEdgeWithProxy] does once the SOCKS5 attempt is out of the
    way (not asked for, or failed): the direct dial, then the handshake. *)
Lemma DialEdgeWithProxy_direct proxyURL address localIP log :
  (proxyURL = "" ∨ proxyAttemptFails w proxyURL address localIP) →
  DialEdgeWithProxy w address localIP proxyURL log =
  match net_DialContext w localIP address with
  | inr e => ((None, Some (newDialError e "DialContext error")), log)
  | inl c =>
      match tls_Handshake w c with
      | Some e =>
          ((None, Some (newDialError e "TLS handshake with edge error")),
           (log ++ [OpenedDirect c; SetDeadline c true; Handshake c])%list)
      | None =>
          ((Some (TLSConn c), None),
           (log ++ [OpenedDirect c; SetDeadline c true; Handshake c;
                    SetDeadline c false])%list)
      end
  end.
Proof.
  intros Hproxy. unfold DialEdgeWithProxy.
  unfold mbind at 1. unfold Net_bind at 1.
  match goal with
  | |- (let '(a, log') := ?first log in _) = _ =>
      assert (Hfirst : first log = ((None, (first log).1.2), log))
  end.
  { case_bool_decide as Hurl; [|done].
    destruct Hproxy as [->|Hfail]; [done|].
    apply (dialViaProxy_failure_reasons _ _ _ log) in Hfail.
    destruct (dialViaProxy_failed _ _ _ _ Hfail) as [Hconn Hlog].
    destruct (dialViaProxy w proxyURL address localIP log) as [[conn err] log'].
    simpl in *. by subst. }
  rewrite Hfirst. clear Hfirst.
  unfold mbind at 1. unfold Net_bind at 1.
  unfold dialDirect, opened.
  destruct (net_DialContext w localIP address) as [c|e]; simpl; [|done].
  rewrite tlsClientHandshake_run.
  destruct (tls_Handshake w c) as [e|]; simpl;
    by rewrite <- ?app_assoc.
Qed.

(** What [DialEdgeWithProxy] does when the SOCKS5 attempt yields a
    connection: no direct dial, the handshake runs over the proxied
    connection. *)
Lemma DialEdgeWithProxy_proxied proxyURL address localIP log u c :
  proxyURL ≠ "" →
  url_Parse w proxyURL = inl u →
  proxy_SOCKS5 w (proxyDialerFor u localIP) = None →
  proxyDial w (proxyDialerFor u localIP) address = inl c →
  DialEdgeWithProxy w address localIP proxyURL log =
  match tls_Handshake w c with
  | Some e =>
      ((None, Some (newDialError e "TLS handshake with edge error")),
       (log ++ [OpenedViaProxy c; SetDeadline c true; Handshake c])%list)
  | None =>
      ((Some (TLSConn c), None),
       (log ++ [OpenedViaProxy c; SetDeadline c true; Handshake c;
                SetDeadline c false])%list)
  end.
Proof.
  intros Hurl Hparse Hmk Hdial. unfold DialEdgeWithProxy.
  rewrite bool_decide_eq_true_2 by done.
  unfold dialViaProxy. rewrite Hparse, Hmk, Hdial.
  unfold mbind at 1. unfold Net_bind at 1.
  unfold mbind, Net_bind, opened, emit; simpl.
  rewrite tlsClientHandshake_run.
  destruct (tls_Handshake w c) as [e|]; simpl;
    by rewrite <- ?app_assoc.
Qed.

(** The SOCKS5 attempt is not made, fails, or yields a connection. *)
Lemma proxy_attempt_cases proxyURL address localIP :
  proxyURL = "" ∨
  proxyAttemptFails w proxyURL address localIP ∨
  (proxyURL ≠ "" ∧
   ∃ u c, url_Parse w proxyURL = inl u ∧
          proxy_SOCKS5 w (proxyDialerFor u localIP) = None ∧
          proxyDial w (proxyDialerFor u localIP) address = inl c).
Proof.
  destruct (decide (proxyURL = "")) as [|Hurl]; [by left|right].
  unfold proxyAttemptFails.
  destruct (url_Parse w proxyURL) as [u|e]; [|left; left; by exists e].
  destruct (proxy_SOCKS5 w (proxyDialerFor u localIP)) as [e|] eqn:Hmk.
  { left; right. exists u, e. rewrite Hmk. auto. }
  destruct (proxyDial w (proxyDialerFor u localIP) address) as [c|e] eqn:Hdial.
  - right. split; [done|]. exists u, c. rewrite Hmk. auto.
  - left; right. exists u, e. rewrite Hmk. auto.
Qed.

End dial_facts.

(** C1. When [DialEdgeWithProxy] is given a proxy URL and the SOCKS5 attempt
    fails (the URL does not parse, the SOCKS5 dialer cannot be built, or
    the dial through the proxy fails), that failure is not returned: the
    call goes on exactly as the direct-only [DialEdge] does, and when the
    direct dial and the TLS handshake succeed the TLS-wrapped direct
    connection is returned with a nil error. *)
Theorem DialEdgeWithProxy_falls_back
    (w : world) (edgeTCPAddr : string) (localIP : IP) (proxyURL : string)
    (log : list netEvent) :
  proxyURL ≠ "" →
  proxyAttemptFails w proxyURL edgeTCPAddr localIP →
  DialEdgeWithProxy w edgeTCPAddr localIP proxyURL log
  = DialEdge w edgeTCPAddr localIP log ∧
  ∀ c, net_DialContext w localIP edgeTCPAddr = inl c →
       tls_Handshake w c = None →
       DialEdgeWithProxy w edgeTCPAddr localIP proxyURL log
       = ((Some (TLSConn c), None),
          (log ++ [OpenedDirect c; SetDeadline c true; Handshake c;
                   SetDeadline c false])%list).
Proof.
  intros _ Hfail. unfold DialEdge.
  rewrite (DialEdgeWithProxy_direct w proxyURL) by (by right).
  rewrite (DialEdgeWithProxy_direct w "") by (by left).
  split; [done|]. intros c Hdial Htls. by rewrite Hdial, Htls.
Qed.

(** C1, with nothing listening at the proxy address. *)
Lemma DialEdgeWithProxy_falls_back_witness :
  let proxyURL := "socks5://127.0.0.1:9999" in
  let edge := "198.41.192.167:7844" in
  proxyURL ≠ "" ∧
  proxyAttemptFails proxyDownWorld proxyURL edge None ∧
  DialEdgeWithProxy proxyDownWorld edge None proxyURL []
  = ((Some (TLSConn 1%nat), None),
     [OpenedDirect 1%nat; SetDeadline 1%nat true; Handshake 1%nat;
      SetDeadline 1%nat false]).
Proof.
  intros proxyURL edge.
  assert (Hurl : proxyURL ≠ "") by (intros H; discriminate H).
  assert (Hfail : proxyAttemptFails proxyDownWorld proxyURL edge None).
  { right. eexists _, _. split; [reflexivity|]. right.
    split; reflexivity. }
  split; [exact Hurl|]. split; [exact Hfail|].
  exact (proj2 (DialEdgeWithProxy_falls_back proxyDownWorld edge None proxyURL
                  [] Hurl Hfail) 1%nat eq_refl eq_refl).
Defined.

(** C5 fails as stated: when the edge accepts the TCP connection and then
    refuses the TLS handshake, [DialEdgeWithProxy] returns the [DialError]
    with the connection it opened neither returned nor closed. *)
Lemma DialEdgeWithProxy_handshake_failure_leaves_conn_open :
  let r := DialEdgeWithProxy handshakeRefusedWorld "198.41.192.167:7844" None "" [] in
  r.1.1 = None ∧
  (∃ e, r.1.2 = Some e ∧ dynType e = DialError) ∧
  r.2 = [OpenedDirect 7%nat; SetDeadline 7%nat true; Handshake 7%nat] ∧
  ¬ (∀ c, c ∈ openedConns r.2 →
          returnedConn r.1.1 = Some c ∨ c ∈ closedConns r.2).
Proof.
  vm_compute. split; [done|]. split; [by eexists|]. split; [done|].
  intros H. destruct (H 7%nat) as [Hret|Hclosed].
  - constructor.
  - discriminate Hret.
  - inversion Hclosed.
Qed.

(** C5, amended. [DialEdgeWithProxy] opens at most one TCP connection (via
    the SOCKS5 proxy or directly) and closes none. The connection it opened
    is returned to the caller, wrapped in TLS and with a nil error, exactly
    when the TLS handshake over it succeeds; when the handshake fails, a
    [DialError] "TLS handshake with edge error" is returned instead. *)
Theorem DialEdgeWithProxy_connections
    (w : world) (edgeTCPAddr : string) (localIP : IP) (proxyURL : string) :
  let r := DialEdgeWithProxy w edgeTCPAddr localIP proxyURL [] in
  closedConns r.2 = [] ∧
  (length (openedConns r.2) ≤ 1)%nat ∧
  (∀ c, c ∈ openedConns r.2 → tls_Handshake w c = None →
        r.1 = (Some (TLSConn c), None)) ∧
  (∀ c e, c ∈ openedConns r.2 → tls_Handshake w c = Some e →
          r.1 = (None, Some (newDialError e "TLS handshake with edge error"))) ∧
  (∀ nc, r.1.1 = Some nc →
         ∃ c, nc = TLSConn c ∧ openedConns r.2 = [c] ∧ r.1.2 = None).
Proof.
  intros r. subst r.
  destruct (proxy_attempt_cases w proxyURL edgeTCPAddr localIP)
    as [Hno|[Hfail|(Hurl & u & c & Hparse & Hmk & Hdial)]].
  - rewrite DialEdgeWithProxy_direct by (by left).
    destruct (net_DialContext w localIP edgeTCPAddr) as [c|e]; simpl.
    + destruct (tls_Handshake w c) as [e|] eqn:Htls; simpl;
        repeat split; try done; try lia;
        try (intros c' ? [->|[]%elem_of_nil]%elem_of_cons ?; congruence);
        try (intros c' [->|[]%elem_of_nil]%elem_of_cons ?; congruence).
      intros nc [= <-]. by exists c.
    + repeat split; try done; try lia;
        try (intros c' ? []%elem_of_nil); try (intros c' []%elem_of_nil).
  - rewrite DialEdgeWithProxy_direct by (by right).
    destruct (net_DialContext w localIP edgeTCPAddr) as [c|e]; simpl.
    + destruct (tls_Handshake w c) as [e|] eqn:Htls; simpl;
        repeat split; try done; try lia;
        try (intros c' ? [->|[]%elem_of_nil]%elem_of_cons ?; congruence);
        try (intros c' [->|[]%elem_of_nil]%elem_of_cons ?; congruence).
      intros nc [= <-]. by exists c.
    + repeat split; try done; try lia;
        try (intros c' ? []%elem_of_nil); try (intros c' []%elem_of_nil).
  - rewrite (DialEdgeWithProxy_proxied w _ _ _ _ u c) by done.
    destruct (tls_Handshake w c) as [e|] eqn:Htls; simpl;
      repeat split; try done; try lia;
      try (intros c' ? [->|[]%elem_of_nil]%elem_of_cons ?; congruence);
      try (intros c' [->|[]%elem_of_nil]%elem_of_cons ?; congruence).
    intros nc [= <-]. by exists c.
Qed.

(** * Further properties of the code *)

(** ** The loop of [Run], one iteration at a time and as a whole *)

Section run_facts.

Implicit Types (env : runEnv) (st : runState) (ev : runEvent)
  (s : Supervisor) (i : Z).

(** A property of the loop state that every iteration keeps holds after
    any number of iterations, also when the loop returns. *)
Lemma runEvents_invariant (P : runState → Prop) :
  (∀ env st ev st',
     P st → runIteration env st ev = Continue st' → P st') →
  (∀ env st ev st' err,
     P st → runIteration env st ev = Return st' err → P st') →
  ∀ evs st,
    P st →
    match runEvents st evs with
    | Continue st' | Return st' _ => P st'
    | Blocked => True
    end.
Proof.
  intros Hcont Hret evs.
  induction evs as [|[env ev] rest IH]; intros st HP; simpl; [done|].
  destruct (runIteration env st ev) as [st'|st' err|] eqn:Hstep; [| |done].
  - apply IH. by eapply Hcont.
  - by eapply Hret.
Qed.

Lemma goStartTunnel_fields st i :
  tunnelsWaiting (goStartTunnel st i) = tunnelsWaiting st ∧
  tunnelsActive (goStartTunnel st i) = tunnelsActive st ∧
  backoffTimer (goStartTunnel st i) = backoffTimer st ∧
  shuttingDown (goStartTunnel st i) = shuttingDown st ∧
  backoffTimerCalls (goStartTunnel st i) = backoffTimerCalls st ∧
  setGracePeriodCalls (goStartTunnel st i) = setGracePeriodCalls st ∧
  sup (goStartTunnel st i) = (newConnectedTunnelSignal (sup st) i).1 ∧
  started (goStartTunnel st i) = (started st ++ [(i, chansMade (sup st))])%list.
Proof. done. Qed.

Lemma goStartTunnel_fold_fields (l : list Z) st :
  let st' := fold_left goStartTunnel l st in
  tunnelsWaiting st' = tunnelsWaiting st ∧
  tunnelsActive st' = tunnelsActive st ∧
  backoffTimer st' = backoffTimer st ∧
  shuttingDown st' = shuttingDown st ∧
  backoffTimerCalls st' = backoffTimerCalls st ∧
  setGracePeriodCalls st' = setGracePeriodCalls st ∧
  (started st').*1 = ((started st).*1 ++ l)%list.
Proof.
  revert st. induction l as [|i l IH]; intros st; simpl.
  - by rewrite app_nil_r.
  - destruct (IH (goStartTunnel st i)) as (-> & -> & -> & -> & -> & -> & ->).
    simpl. rewrite fmap_app, <- app_assoc. done.
Qed.

(** An invariant of the supervisor that launching a tunnel keeps is kept by
    launching a list of them. *)
Lemma goStartTunnel_fold_sup (P : Supervisor → Prop) (l : list Z) st :
  (∀ s i, P s → P (newConnectedTunnelSignal s i).1) →
  P (sup st) → P (sup (fold_left goStartTunnel l st)).
Proof.
  intros Hnew. revert st.
  induction l as [|i l IH]; intros st HP; simpl; [done|].
  apply IH. simpl. by apply Hnew.
Qed.

(** What an iteration does to the supervisor: nothing, a number of
    [newConnectedTunnelSignal], or one [waitForNextTunnel]. *)
Lemma runIteration_sup (P : Supervisor → Prop) env st ev st' :
  (∀ s i, P s → P (newConnectedTunnelSignal s i).1) →
  (∀ order s i, P s → P (waitForNextTunnel order s i).1) →
  P (sup st) →
  (runIteration env st ev = Continue st' ∨
   ∃ err, runIteration env st ev = Return st' err) →
  P (sup st').
Proof.
  intros Hnew Hwait HP Hstep.
  assert (Hcase : ∀ r, runIteration env st ev = r →
            (r = Continue st' ∨ ∃ err, r = Return st' err) → P (sup st')).
  { clear Hstep. intros r Hr Hor.
    destruct ev as [|i err| | |]; simpl in Hr.
    - subst r. destruct Hor as [?|[? ?]]; simplify_eq. done.
    - destruct err as [e|].
      + destruct (shuttingDown st); simpl in Hr.
        * case_bool_decide; subst r;
            destruct Hor as [?|[? ?]]; simplify_eq; done.
        * destruct (hasReconnectSignalType e).
          { subst r. destruct Hor as [?|[? ?]]; simplify_eq.
            simpl. by apply Hnew. }
          destruct (moreRetries env _); simpl in Hr.
          { destruct (waitForNextTunnel (rangeOrder env) (sup st) i)
              as [s more] eqn:Hw.
            subst r. destruct Hor as [?|[? ?]]; simplify_eq. simpl.
            change s with (s, more).1. rewrite <- Hw. by apply Hwait. }
          subst r. destruct Hor as [?|[? ?]]; simplify_eq. done.
      + case_bool_decide; subst r;
          destruct Hor as [?|[? ?]]; simplify_eq; done.
    - destruct (backoffTimer st); subst r;
        destruct Hor as [?|[? ?]]; simplify_eq.
      simpl. by apply goStartTunnel_fold_sup.
    - destruct (nextConnectedSignal (sup st)); [|
        subst r; destruct Hor as [?|[? ?]]; simplify_eq].
      destruct (waitForNextTunnel (rangeOrder env) (sup st)
                  (nextConnectedIndex (sup st))) as [s more] eqn:Hw.
      subst r. destruct Hor as [?|[? ?]]; simplify_eq. simpl.
      change s with (s, more).1. rewrite <- Hw. by apply Hwait.
    - subst r. destruct Hor as [?|[? ?]]; simplify_eq. done. }
  by eapply Hcase.
Qed.

Lemma newConnectedTunnelSignal_awaits s i :
  awaitsConnecting (newConnectedTunnelSignal s i).1.
Proof. unfold awaitsConnecting; simpl. by rewrite lookup_insert_eq. Qed.

Lemma waitForNextTunnel_awaits order s i :
  awaitsConnecting (waitForNextTunnel order s i).1.
Proof.
  unfold waitForNextTunnel, awaitsConnecting.
  destruct (range_first (delete i (tunnelsConnecting s)) order)
    as [[k v]|] eqn:Hr; simpl.
  - by eapply range_first_Some.
  - by apply range_first_None in Hr.
Qed.

Lemma newConnectedTunnelSignal_distinct s i :
  signalsDistinct s → signalsDistinct (newConnectedTunnelSignal s i).1.
Proof.
  intros [Hlt Hinj]. split; simpl.
  - intros j sig. rewrite lookup_insert. case_decide.
    + intros [= <-]. lia.
    + intros Hj. apply Hlt in Hj. lia.
  - intros j k sig. rewrite !lookup_insert.
    repeat case_decide; intros Hj Hk; simplify_eq; try done.
    + apply Hlt in Hk. lia.
    + apply Hlt in Hj. lia.
    + by eapply Hinj.
Qed.

Lemma waitForNextTunnel_distinct order s i :
  signalsDistinct s → signalsDistinct (waitForNextTunnel order s i).1.
Proof.
  intros [Hlt Hinj].
  assert (Hdel : ∀ j sig, delete i (tunnelsConnecting s) !! j = Some sig →
                          tunnelsConnecting s !! j = Some sig).
  { intros j sig. rewrite lookup_delete. by case_decide. }
  unfold waitForNextTunnel.
  destruct (range_first (delete i (tunnelsConnecting s)) order)
    as [[k v]|]; split; simpl; eauto.
Qed.

End run_facts.

Section run_invariants.

Implicit Types (env : runEnv) (st : runState) (ev : runEvent).

Lemma runIteration_timer env st ev st' :
  timerMatchesWaiting st →
  (runIteration env st ev = Continue st' ∨
   ∃ err, runIteration env st ev = Return st' err) →
  timerMatchesWaiting st'.
Proof.
  unfold timerMatchesWaiting. intros Hinv Hstep.
  destruct ev as [|i err| | |]; simpl in Hstep.
  - destruct Hstep as [?|[? ?]]; simplify_eq. done.
  - destruct err as [e|].
    + destruct (shuttingDown st); simpl in Hstep.
      * case_bool_decide; destruct Hstep as [?|[? ?]]; simplify_eq; done.
      * destruct (hasReconnectSignalType e).
        { destruct Hstep as [?|[? ?]]; simplify_eq. done. }
        destruct (moreRetries env _); simpl in Hstep.
        { destruct (waitForNextTunnel (rangeOrder env) (sup st) i) as [s more].
          destruct Hstep as [?|[? ?]]; simplify_eq. simpl.
          split.
          - intros Hnil. by apply app_eq_nil in Hnil as [_ ?].
          - case_bool_decide as Ht; intros Hnone;
              [discriminate Hnone|contradiction]. }
        destruct Hstep as [?|[? ?]]; simplify_eq. done.
    + case_bool_decide; destruct Hstep as [?|[? ?]]; simplify_eq; done.
  - destruct (backoffTimer st); destruct Hstep as [?|[? ?]]; simplify_eq.
    done.
  - destruct (nextConnectedSignal (sup st));
      [|destruct Hstep as [?|[? ?]]; simplify_eq].
    destruct (waitForNextTunnel _ _ _) as [s more].
    destruct Hstep as [?|[? ?]]; simplify_eq. done.
  - destruct Hstep as [?|[? ?]]; simplify_eq. done.
Qed.

Lemma runIteration_active_bound env st ev st' :
  (runIteration env st ev = Continue st' ∨
   ∃ err, runIteration env st ev = Return st' err) →
  tunnelsActive st' + Z.of_nat (length (tunnelsWaiting st'))
  <= tunnelsActive st + Z.of_nat (length (tunnelsWaiting st)).
Proof.
  intros Hstep.
  destruct ev as [|i err| | |]; simpl in Hstep.
  - destruct Hstep as [?|[? ?]]; simplify_eq. simpl. lia.
  - destruct err as [e|].
    + destruct (shuttingDown st); simpl in Hstep.
      * case_bool_decide; destruct Hstep as [?|[? ?]]; simplify_eq;
          simpl; lia.
      * destruct (hasReconnectSignalType e).
        { destruct Hstep as [?|[? ?]]; simplify_eq. simpl. lia. }
        destruct (moreRetries env _); simpl in Hstep.
        { destruct (waitForNextTunnel (rangeOrder env) (sup st) i) as [s more].
          destruct Hstep as [?|[? ?]]; simplify_eq. simpl.
          rewrite length_app. simpl. lia. }
        destruct Hstep as [?|[? ?]]; simplify_eq. simpl. lia.
    + case_bool_decide; destruct Hstep as [?|[? ?]]; simplify_eq;
        simpl; lia.
  - destruct (backoffTimer st); destruct Hstep as [?|[? ?]]; simplify_eq.
    simpl.
    destruct (goStartTunnel_fold_fields (tunnelsWaiting st) st)
      as (_ & -> & _). lia.
  - destruct (nextConnectedSignal (sup st));
      [|destruct Hstep as [?|[? ?]]; simplify_eq].
    destruct (waitForNextTunnel _ _ _) as [s more].
    destruct Hstep as [?|[? ?]]; simplify_eq. simpl. lia.
  - destruct Hstep as [?|[? ?]]; simplify_eq. simpl. lia.
Qed.

(** Seeding the siblings keeps what setting a protocol fallback and
    launching a tunnel keep. *)
Lemma startSiblings_sup (P : Supervisor → Prop) (ienv : initEnv)
    (n : nat) (i : Z) (s : Supervisor) (launched : list (Z * chan)) :
  (∀ s i pf, P s → P (setProtocolFallback s i pf)) →
  (∀ s i, P s → P (newConnectedTunnelSignal s i).1) →
  P s → P (startSiblings ienv n i s launched).1.
Proof.
  intros Hset Hnew. revert i s launched.
  induction n as [|n IH]; intros i s launched HP; simpl; [done|].
  apply IH.
  apply (Hnew (setProtocolFallback
                 (setProtocolFallback s 0 (firstFallbackAt ienv i)) i _) i).
  by do 2 apply Hset.
Qed.

Lemma initialize_sup (P : Supervisor → Prop) (ienv : initEnv) (HA : Z) :
  (∀ s i pf, P s → P (setProtocolFallback s i pf)) →
  (∀ s i, P s → P (newConnectedTunnelSignal s i).1) →
  P NewSupervisor → P (initSupervisor (initialize ienv NewSupervisor HA)).
Proof.
  intros Hset Hnew HP. unfold initialize.
  destruct (initFired ienv); simpl; try by do 2 apply Hset.
  match goal with
  | |- context [startSiblings ?e ?n ?i ?s ?l] =>
      pose proof (startSiblings_sup P e n i s l Hset Hnew) as Hs;
      destruct (startSiblings e n i s l) as [s' launched']
  end.
  simpl in *. apply Hset, Hs. by apply Hset.
Qed.

Lemma initialize_HAConnections (ienv : initEnv) (s : Supervisor) (HA : Z) :
  initHAConnections (initialize ienv s HA) = Z.min HA (AvailableAddrs ienv).
Proof.
  unfold initialize.
  assert (Hmin : (if AvailableAddrs ienv <? HA then AvailableAddrs ienv else HA)
                 = Z.min HA (AvailableAddrs ienv)).
  { destruct (Z.ltb_spec (AvailableAddrs ienv) HA); lia. }
  rewrite Hmin.
  destruct (initFired ienv); simpl; try done.
  by destruct (startSiblings _ _ _ _ _).
Qed.

End run_invariants.

(** X1. At every point of the loop of [Run], and when [Run] returns from
    it, the shared backoff timer is armed exactly when some tunnel is
    waiting in [tunnelsWaiting]: a waiting tunnel is never left without a
    timer, and the timer never fires for nobody. *)
Theorem Run_timer_armed_iff_waiting
    (ienv : initEnv) (HAConnections : Z) (evs : list (runEnv * runEvent)) :
  match Run ienv HAConnections evs with
  | inl (Continue st) | inl (Return st _) =>
      tunnelsWaiting st = [] ↔ backoffTimer st = None
  | _ => True
  end.
Proof.
  unfold Run. destruct (initReturned _) as [[|err]|]; [done..|].
  apply (runEvents_invariant timerMatchesWaiting).
  - intros env st ev st' Hinv Hstep. eapply runIteration_timer; eauto.
  - intros env st ev st' err Hinv Hstep. eapply runIteration_timer; eauto.
  - done.
Qed.

(** X2. At every point of the loop of [Run], the count of active tunnels
    plus the number of tunnels waiting for the timer is at most
    [HAConnections] as [initialize] clamped it, that is at most both the
    configured number and the number of available edge addresses. *)
Theorem Run_active_and_waiting_bounded
    (ienv : initEnv) (HAConnections : Z) (evs : list (runEnv * runEvent)) :
  match Run ienv HAConnections evs with
  | inl (Continue st) | inl (Return st _) =>
      tunnelsActive st + Z.of_nat (length (tunnelsWaiting st))
      <= Z.min HAConnections (AvailableAddrs ienv)
  | _ => True
  end.
Proof.
  unfold Run. destruct (initReturned _) as [[|err]|]; [done..|].
  apply (runEvents_invariant
           (λ st, tunnelsActive st + Z.of_nat (length (tunnelsWaiting st))
                  <= Z.min HAConnections (AvailableAddrs ienv))).
  - intros env st ev st' Hinv Hstep.
    pose proof (runIteration_active_bound env st ev st' (or_introl Hstep)). lia.
  - intros env st ev st' err Hinv Hstep.
    pose proof (runIteration_active_bound env st ev st'
                  (or_intror (ex_intro _ err Hstep))). lia.
  - simpl. rewrite initialize_HAConnections. lia.
Qed.

(** X3. At every point of the loop of [Run], the supervisor awaits no
    signal exactly when no tunnel is connecting, and otherwise
    [nextConnectedSignal] is the signal that [tunnelsConnecting] holds for
    [nextConnectedIndex]; and no two connecting tunnels share a signal
    channel. *)
Theorem Run_awaits_a_connecting_tunnel
    (ienv : initEnv) (HAConnections : Z) (evs : list (runEnv * runEvent)) :
  match Run ienv HAConnections evs with
  | inl (Continue st) | inl (Return st _) =>
      match nextConnectedSignal (sup st) with
      | None => tunnelsConnecting (sup st) = ∅
      | Some sig =>
          tunnelsConnecting (sup st) !! nextConnectedIndex (sup st) = Some sig
      end ∧
      ∀ i j sig, tunnelsConnecting (sup st) !! i = Some sig →
                 tunnelsConnecting (sup st) !! j = Some sig → i = j
  | _ => True
  end.
Proof.
  unfold Run. destruct (initReturned _) as [[|err]|] eqn:Hret; [done..|].
  set (P := λ s, awaitsConnecting s ∧ signalsDistinct s).
  assert (Hnew : ∀ s i, P s → P (newConnectedTunnelSignal s i).1).
  { intros s i [_ Hd]. split;
      [apply newConnectedTunnelSignal_awaits
      |by apply newConnectedTunnelSignal_distinct]. }
  assert (Hwait : ∀ order s i, P s → P (waitForNextTunnel order s i).1).
  { intros order s i [_ Hd]. split;
      [apply waitForNextTunnel_awaits|by apply waitForNextTunnel_distinct]. }
  assert (Hinit : P (sup (runStart (initialize ienv NewSupervisor HAConnections)))).
  { simpl. apply (initialize_sup P); [by intros s i pf HP|exact Hnew|].
    split; [done|]. split; intros *; simpl; by rewrite lookup_empty. }
  pose proof (runEvents_invariant (λ st, P (sup st))) as Hinv.
  simpl in Hinv.
  specialize (Hinv
    (λ env st ev st' HP Hstep,
       runIteration_sup P env st ev st' Hnew Hwait HP (or_introl Hstep))
    (λ env st ev st' e HP Hstep,
       runIteration_sup P env st ev st' Hnew Hwait HP
         (or_intror (ex_intro _ e Hstep)))
    evs _ Hinit).
  destruct (runEvents _ evs) as [st'|st' e|]; [| |done].
  - destruct Hinv as [Ha [_ Hd]]. split; [exact Ha|exact Hd].
  - destruct Hinv as [Ha [_ Hd]]. split; [exact Ha|exact Hd].
Qed.

(** X4. Once graceful shutdown has begun it stays begun, and the loop of
    [Run] launches no tunnel for a tunnel error any more: whatever events
    follow, the only tunnels it may still launch are those that were
    already waiting for the backoff timer, all at once when that timer
    fires, and nothing is added to [tunnelsWaiting]. *)
Theorem Run_after_shutdown
    (st : runState) (evs : list (runEnv * runEvent)) :
  shuttingDown st = true →
  match runEvents st evs with
  | Continue st' | Return st' _ =>
      shuttingDown st' = true ∧
      ((tunnelsWaiting st' = tunnelsWaiting st ∧
        backoffTimer st' = backoffTimer st ∧
        (started st').*1 = (started st).*1) ∨
       (tunnelsWaiting st' = [] ∧
        backoffTimer st' = None ∧
        (started st').*1 = ((started st).*1 ++ tunnelsWaiting st)%list))
  | Blocked => True
  end.
Proof.
  intros Hdown.
  set (Q := λ st' : runState,
    shuttingDown st' = true ∧
    ((tunnelsWaiting st' = tunnelsWaiting st ∧
      backoffTimer st' = backoffTimer st ∧
      (started st').*1 = (started st).*1) ∨
     (tunnelsWaiting st' = [] ∧
      backoffTimer st' = None ∧
      (started st').*1 = ((started st).*1 ++ tunnelsWaiting st)%list))).
  assert (Hstep : ∀ env st1 ev st2,
            Q st1 →
            (runIteration env st1 ev = Continue st2 ∨
             ∃ err, runIteration env st1 ev = Return st2 err) →
            Q st2).
  { intros env st1 ev st2 [Hd1 Hcases] Hrun.
    destruct ev as [|i err| | |]; simpl in Hrun.
    - destruct Hrun as [?|[? ?]]; simplify_eq. split; done.
    - rewrite Hd1 in Hrun. simpl in Hrun.
      destruct err as [e|]; case_bool_decide;
        destruct Hrun as [?|[? ?]]; simplify_eq; split; done.
    - destruct (backoffTimer st1) as [t|] eqn:Ht;
        destruct Hrun as [?|[? ?]]; simplify_eq.
      destruct (goStartTunnel_fold_fields (tunnelsWaiting st1) st1)
        as (_ & _ & _ & Hd & _ & _ & Hst).
      split; simpl; [by rewrite Hd|].
      destruct Hcases as [(Hw & Hb & Hs)|(Hw & Hb & Hs)].
      + right. rewrite Hst, Hs, Hw. done.
      + congruence.
    - destruct (nextConnectedSignal (sup st1));
        [|destruct Hrun as [?|[? ?]]; simplify_eq].
      destruct (waitForNextTunnel _ _ _) as [s more].
      destruct Hrun as [?|[? ?]]; simplify_eq. split; done.
    - destruct Hrun as [?|[? ?]]; simplify_eq. split; done. }
  apply (runEvents_invariant Q).
  - intros env st1 ev st2 HQ Hrun. eapply Hstep; eauto.
  - intros env st1 ev st2 err HQ Hrun. eapply Hstep; eauto.
  - split; [done|]. by left.
Qed.

(** X4, for a loop in shutdown with tunnel 1 waiting: tunnel 2 fails, the
    timer fires, tunnel 1 fails again. *)
Lemma Run_after_shutdown_witness :
  let e := mkError PlainError "connection lost" None in
  let env := {| moreRetries := λ _, true; rangeOrder := 0 |} in
  let st := {| sup := NewSupervisor; tunnelsWaiting := [1];
               tunnelsActive := 3; backoffTimer := Some 0%nat;
               shuttingDown := true; started := [];
               backoffTimerCalls := 1; setGracePeriodCalls := 0 |} in
  shuttingDown st = true ∧
  match runEvents st [(env, TunnelError 2 (Some e)); (env, BackoffTimerFired);
                      (env, TunnelError 1 (Some e))] with
  | Continue st' | Return st' _ =>
      shuttingDown st' = true ∧
      ((tunnelsWaiting st' = tunnelsWaiting st ∧
        backoffTimer st' = backoffTimer st ∧
        (started st').*1 = (started st).*1) ∨
       (tunnelsWaiting st' = [] ∧
        backoffTimer st' = None ∧
        (started st').*1 = ((started st).*1 ++ tunnelsWaiting st)%list))
  | Blocked => True
  end.
Proof.
  intros e env st. split; [reflexivity|].
  exact (Run_after_shutdown st
           [(env, TunnelError 2 (Some e)); (env, BackoffTimerFired);
            (env, TunnelError 1 (Some e))] eq_refl).
Defined.

(** X5. When the backoff timer fires, the loop of [Run] launches every
    waiting tunnel again, in the order in which they were queued, each
    with a fresh signal under which it is registered in
    [tunnelsConnecting]; it empties [tunnelsWaiting], disarms the timer and
    adds their number to [tunnelsActive]. *)
Theorem runIteration_BackoffTimerFired
    (env : runEnv) (st : runState) (timer : nat) :
  backoffTimer st = Some timer →
  ∃ st',
    runIteration env st BackoffTimerFired = Continue st' ∧
    (started st').*1 = ((started st).*1 ++ tunnelsWaiting st)%list ∧
    tunnelsWaiting st' = [] ∧
    backoffTimer st' = None ∧
    tunnelsActive st'
    = tunnelsActive st + Z.of_nat (length (tunnelsWaiting st)) ∧
    ∀ i, i ∈ tunnelsWaiting st → is_Some (tunnelsConnecting (sup st') !! i).
Proof.
  intros Ht. eexists. split; [simpl; rewrite Ht; reflexivity|].
  simpl.
  destruct (goStartTunnel_fold_fields (tunnelsWaiting st) st)
    as (_ & -> & _ & _ & _ & _ & ->).
  repeat split; try done.
  generalize (tunnelsWaiting st) as l. clear Ht. revert st.
  intros st l. revert st.
  induction l as [|j l IH]; intros st i Hi; [by apply elem_of_nil in Hi|].
  simpl. destruct (decide (i ∈ l)) as [Hin|Hnin]; [by apply IH|].
  apply elem_of_cons in Hi as [->|?]; [|done].
  apply (goStartTunnel_fold_sup (λ s, is_Some (tunnelsConnecting s !! j))).
  - intros s k [sig Hs]. simpl. rewrite lookup_insert.
    case_decide; eauto.
  - simpl. rewrite lookup_insert_eq. eauto.
Qed.

(** X5, with tunnels 2 and 1 waiting, in that order. *)
Lemma runIteration_BackoffTimerFired_witness :
  let env := {| moreRetries := λ _, true; rangeOrder := 0 |} in
  let st := {| sup := NewSupervisor; tunnelsWaiting := [2; 1];
               tunnelsActive := 1; backoffTimer := Some 0%nat;
               shuttingDown := false; started := [];
               backoffTimerCalls := 1; setGracePeriodCalls := 0 |} in
  backoffTimer st = Some 0%nat ∧
  ∃ st', runIteration env st BackoffTimerFired = Continue st' ∧
         (started st').*1 = [2; 1] ∧
         tunnelsActive st' = 3.
Proof.
  intros env st. split; [reflexivity|].
  destruct (runIteration_BackoffTimerFired env st 0%nat eq_refl)
    as (st' & Hstep & Hstarted & _ & _ & Hactive & _).
  exists st'. split; [exact Hstep|]. split; [exact Hstarted|exact Hactive].
Defined.

(** ** [initialize] *)

Section initialize_facts.

Context (env : initEnv).

Lemma startSiblings_spec (n : nat) (i : Z) (s : Supervisor)
    (launched : list (Z * chan)) :
  0 < i →
  let r := startSiblings env n i s launched in
  r.2.*1 = (launched.*1 ++ seqZ i (Z.of_nat n))%list ∧
  (∀ k, i <= k < i + Z.of_nat n →
        tunnelsProtocolFallback r.1 !! k
        = Some {| BackoffHandler := retry.NewBackoff (Retries env);
                  protocol := protocol (firstFallbackAt env k);
                  inFallback := false |} ∧
        is_Some (tunnelsConnecting r.1 !! k)) ∧
  (∀ k, ¬ (i <= k < i + Z.of_nat n) →
        (k ≠ 0 →
         tunnelsProtocolFallback r.1 !! k = tunnelsProtocolFallback s !! k) ∧
        tunnelsConnecting r.1 !! k = tunnelsConnecting s !! k).
Proof.
  revert i s launched.
  induction n as [|n IH]; intros i s launched Hi; simpl.
  - rewrite app_nil_r. split; [done|]. split; [|done]. intros k Hk. lia.
  - match goal with
    | |- context [startSiblings env n (i + 1) ?s1 ?l1] =>
        destruct (IH (i + 1) s1 l1 ltac:(lia)) as (Hl & Hin & Hout)
    end.
    split; [|split].
    + rewrite Hl, fmap_app, <- app_assoc. simpl. f_equal.
      rewrite (seqZ_cons i) by lia. f_equal. f_equal; lia.
    + intros k Hk. destruct (decide (k = i)) as [->|Hne].
      * destruct (Hout i ltac:(lia)) as [Hpf ->].
        rewrite Hpf by lia. simpl.
        rewrite !lookup_insert_eq. simpl. eauto.
      * apply Hin. lia.
    + intros k Hk. destruct (Hout k ltac:(lia)) as [Hpf ->]. simpl.
      split.
      * intros Hk0. rewrite Hpf by done. simpl.
        rewrite !lookup_insert_ne by lia. done.
      * rewrite lookup_insert_ne by lia. done.
Qed.

End initialize_facts.

(** X6. [initialize] clamps [HAConnections] to the number of available
    edge addresses and launches the first tunnel with a protocol fallback
    that holds the selector's current protocol, out of fallback; entry 0 of
    [tunnelsProtocolFallback] stays in place. Unless the first tunnel
    signals that it is connected no sibling is launched. Once it does, the
    siblings 1 .. HAConnections-1 are launched in ascending order, each
    registered in [tunnelsConnecting] and each seeded, out of fallback and
    with a new backoff handler, with the protocol that entry 0 holds when
    that sibling is seeded; index 0 itself never enters
    [tunnelsConnecting]. *)
Theorem initialize_spec (env : initEnv) (HAConnections : Z) :
  let r := initialize env NewSupervisor HAConnections in
  let n := Z.min HAConnections (AvailableAddrs env) in
  let seed p := {| BackoffHandler := retry.NewBackoff (Retries env);
                   protocol := p; inFallback := false |} in
  initHAConnections r = n ∧
  initFirstTunnel r = seed (selectorCurrent env) ∧
  is_Some (tunnelsProtocolFallback (initSupervisor r) !! 0) ∧
  tunnelsConnecting (initSupervisor r) !! 0 = None ∧
  (initFired env ≠ InitConnected →
   initStarted r = [] ∧ tunnelsConnecting (initSupervisor r) = ∅) ∧
  (initFired env = InitConnected →
   initReturned r = None ∧
   (initStarted r).*1 = seqZ 1 (n - 1) ∧
   (∀ k, 1 <= k < n →
         tunnelsProtocolFallback (initSupervisor r) !! k
         = Some (seed (protocol (firstFallbackAt env k))) ∧
         is_Some (tunnelsConnecting (initSupervisor r) !! k)) ∧
   (∀ k, 1 <= k → n <= k →
         tunnelsProtocolFallback (initSupervisor r) !! k = None ∧
         tunnelsConnecting (initSupervisor r) !! k = None)).
Proof.
  intros r n seed.
  split; [apply initialize_HAConnections|].
  subst r. unfold initialize.
  assert (Hmin : (if AvailableAddrs env <? HAConnections
                  then AvailableAddrs env else HAConnections) = n).
  { subst n. destruct (Z.ltb_spec (AvailableAddrs env) HAConnections); lia. }
  rewrite Hmin.
  destruct (initFired env) eqn:Hfired; simpl;
    try (repeat split; try done; by rewrite ?lookup_insert_eq).
  match goal with
  | |- context [startSiblings env ?m 1 ?s1 []] =>
      pose proof (startSiblings_spec env m 1 s1 [] ltac:(lia))
        as (Hl & Hin & Hout);
      destruct (startSiblings env m 1 s1 []) as [s' launched']
  end.
  simpl in *.
  destruct (Hout 0 ltac:(lia)) as [_ Hc0].
  split; [done|].
  split; [by rewrite lookup_insert_eq|].
  split; [by rewrite Hc0|].
  split; [done|]. intros _.
  split; [done|].
  split.
  { rewrite Hl. unfold seqZ. by rewrite Nat2Z.id. }
  split.
  - intros k Hk. rewrite lookup_insert_ne by lia. apply Hin. lia.
  - intros k Hk1 Hkn. destruct (Hout k ltac:(lia)) as [Hpf ->].
    rewrite lookup_insert_ne by lia. rewrite Hpf by lia.
    rewrite lookup_insert_ne by lia. done.
Qed.

(** ** One attempt: [serveTunnel] and [Serve] *)

(** X7. How [serveTunnel] classifies the outcome of [serveConnection]. The
    [recoverable] flag that [serveConnection] returned plays no part. A nil
    error gives (nil, false). A non-nil error is passed on as it is, except
    that a [ServerRegisterTunnelError] is replaced by its [Cause]; it is
    reported as not recoverable exactly when it is a
    [DupConnRegisterTunnelError], an [*EdgeQuicDialError], a permanent
    [ServerRegisterTunnelError], or an error of another type than
    [ReconnectSignal] that is [context.Canceled] or an
    [unrecoverableError]. A panic always gives a non-nil, recoverable
    error. *)
Theorem serveTunnel_classification (v : errorView) (out : connOutcome) :
  let r := serveTunnel v out in
  match out with
  | Panicked _ _ => is_Some r.1 ∧ r.2 = true
  | Returned err flag =>
      r = serveTunnel v (Returned err (negb flag)) ∧
      (err = None → r = (None, false)) ∧
      (∀ e, err = Some e →
        (dynType e ≠ ServerRegisterTunnelError → r.1 = Some e) ∧
        (dynType e = ServerRegisterTunnelError → r.1 = Cause v e) ∧
        (r.2 = false ↔
         dynType e ∈ [DupConnRegisterTunnelError; EdgeQuicDialError] ∨
         (dynType e = ServerRegisterTunnelError ∧ Permanent v e = true) ∨
         ((dynType e ∉ [DupConnRegisterTunnelError; EdgeQuicDialError;
                        ServerRegisterTunnelError; ReconnectSignal]) ∧
          (isContextCanceled v e = true ∨ isUnrecoverableError v e = true))))
  end.
Proof.
  intros r. subst r. destruct out as [[e|] flag|p stack]; simpl.
  - split; [done|]. split; [done|]. intros e' [= <-].
    assert (Hin : ∀ (t : errType) l, t ∈ l ↔ In t l)
      by (intros; apply list_elem_of_In).
    destruct e as [ty msg inner]; simpl.
    destruct ty; simpl;
      repeat split; try done; rewrite ?Hin; simpl;
      try (destruct (Permanent v _));
      try (destruct (isContextCanceled v _));
      try (destruct (isUnrecoverableError v _));
      simpl; intuition congruence.
  - split; [done|]. split; [done|]. by intros e.
  - split; [eauto|done].
Qed.

Section Serve_facts.

Implicit Types (env : serveEnv) (f : ipAddrFallback) (i : Z)
  (pf : protocolFallback) (e : error).

(** The dial-error case of [ShouldGetNewAddress]. *)
Lemma ShouldGetNewAddress_dial f i e :
  dynType e ∈ [DialError; EdgeQuicDialError] →
  ShouldGetNewAddress f i (Some e) =
  if maxRetries f <=? retriesOf f i
  then (setRetries f i 0, (true, Some (NewConnectivityError true)))
  else (setRetries f i (uint8 (retriesOf f i + 1)),
        (true, Some (NewConnectivityError false))).
Proof.
  intros Hty. destruct e as [ty msg inner]. simpl in Hty.
  set_unfold in Hty. by destruct Hty as [->|[->|[]]].
Qed.

(** [serveTunnel] passes a dial error on as it is. *)
Lemma serveTunnel_dial v e flag :
  dynType e ∈ [DialError; EdgeQuicDialError] →
  (serveTunnel v (Returned (Some e) flag)).1 = Some e.
Proof.
  intros Hty. destruct e as [ty msg inner]. simpl in Hty.
  set_unfold in Hty. destruct Hty as [->|[->|[]]]; simpl; [|done].
  by destruct (isContextCanceled v _).
Qed.

End Serve_facts.

(** X8. A call of [Serve] whose session ends with a [DialError] or an
    [*EdgeQuicDialError] always asks for another edge address and touches
    the retry counter of its own index only. While that counter is below
    [maxRetries] it is incremented and the protocol is left alone: no
    protocol selection takes place. Once the counter has reached
    [maxRetries] it is reset to zero and, when the backoff timer fires and
    no tunnel has connected with the current protocol, the protocol
    fallback becomes what [selectNextProtocol] makes of it, the dial error
    being returned. *)
Theorem Serve_dial_failure
    (env : serveEnv) (f : ipAddrFallback) (i : Z) (pf : protocolFallback)
    (e : error) (flag : bool) :
  ipAddrFallback_wf f →
  GetAddr env = None →
  serveConnection env = Returned (Some e) flag →
  dynType e ∈ [DialError; EdgeQuicDialError] →
  let r := Serve env f i pf in
  let pf1 := if registered env then reset pf else pf in
  rotated r = true ∧
  (∀ j, i ≠ j →
        retriesByConnIndex (handlerAfter r) !! j = retriesByConnIndex f !! j) ∧
  (retriesOf f i < maxRetries f →
   retriesOf (handlerAfter r) i = retriesOf f i + 1 ∧
   protocolSelected r = false ∧
   protocol (fallbackAfter r) = protocol pf ∧
   inFallback (fallbackAfter r) = inFallback pf1) ∧
  (maxRetries f <= retriesOf f i →
   retriesOf (handlerAfter r) i = 0 ∧
   (GetDifferentAddr env = None →
    GetMaxBackoffDuration env = true →
    fired env = ServeBackoffTimer →
    HasConnectedWithCurrent env = false →
    served r = Some e ∧
    fallbackAfter r
    = (selectNextProtocol
         (withBackoffHandler pf1 (BackoffTimer env (BackoffHandler pf1)))
         (ProtocolSelector env) (Some e)).1)).
Proof.
  intros Hwf Haddr Hconn Hty r pf1.
  pose proof (retriesOf_wf f i Hwf) as [Hlo Hhi].
  destruct Hwf as [[Hm0 Hm1] _].
  pose proof (serveTunnel_dial (view env) e flag Hty) as Hst.
  subst r. unfold Serve. rewrite Haddr, Hconn.
  destruct (serveTunnel (view env) (Returned (Some e) flag)) as [err should].
  simpl in Hst. subst err.
  rewrite (ShouldGetNewAddress_dial f i e Hty).
  assert (Hproto : protocol pf1 = protocol pf)
    by (subst pf1; by destruct (registered env)).
  fold pf1.
  destruct (Z.leb_spec (maxRetries f) (retriesOf f i)) as [Hle|Hlt]; simpl.
  - destruct (GetDifferentAddr env) as [e'|]; simpl.
    + rewrite retriesOf_setRetries_eq.
      repeat split; try done; try lia.
      intros j Hj. by rewrite lookup_insert_ne.
    + destruct (GetMaxBackoffDuration env); simpl.
      * destruct (fired env) as [ctxErr| |] eqn:Hfired; simpl;
          try (rewrite retriesOf_setRetries_eq;
               repeat split; try done; try lia;
               intros j Hj; by rewrite lookup_insert_ne).
        destruct (HasConnectedWithCurrent env); simpl;
          rewrite retriesOf_setRetries_eq;
          repeat split; try done; try lia;
          intros j Hj; by rewrite lookup_insert_ne.
      * rewrite retriesOf_setRetries_eq.
        repeat split; try done; try lia.
        intros j Hj. by rewrite lookup_insert_ne.
  - assert (Hinc : uint8 (retriesOf f i + 1) = retriesOf f i + 1).
    { unfold uint8. apply Z.mod_small. lia. }
    destruct (GetDifferentAddr env) as [e'|]; simpl.
    + rewrite retriesOf_setRetries_eq, Hinc.
      repeat split; try done; try lia.
      intros j Hj. by rewrite lookup_insert_ne.
    + destruct (GetMaxBackoffDuration env); simpl.
      * destruct (fired env) as [ctxErr| |] eqn:Hfired; simpl;
          rewrite retriesOf_setRetries_eq, Hinc;
          repeat split; try done; try lia;
          intros j Hj; by rewrite lookup_insert_ne.
      * rewrite retriesOf_setRetries_eq, Hinc.
        repeat split; try done; try lia.
        intros j Hj. by rewrite lookup_insert_ne.
Qed.

(** X8, for a handler allowing two address retries that has used one, on a
    failed QUIC dial. *)
Lemma Serve_dial_failure_witness :
  let e := mkError EdgeQuicDialError "failed to dial to edge with quic" None in
  let env := quicBlockedEnv (Returned (Some e) true) in
  let f := {| retriesByConnIndex := {[3 := 1]}; maxRetries := 2 |} in
  let pf := {| BackoffHandler := retry.NewBackoff 5;
               protocol := connection.QUIC; inFallback := false |} in
  ipAddrFallback_wf f ∧
  GetAddr env = None ∧
  serveConnection env = Returned (Some e) true ∧
  dynType e ∈ [DialError; EdgeQuicDialError] ∧
  rotated (Serve env f 3 pf) = true.
Proof.
  intros e env f pf.
  assert (Hwf : ipAddrFallback_wf f).
  { split; [unfold is_uint8; simpl; lia|].
    intros i v Hv. subst f; simpl in Hv.
    apply lookup_singleton_Some in Hv as [<- <-]. unfold is_uint8; lia. }
  assert (Hty : dynType e ∈ [DialError; EdgeQuicDialError])
    by (simpl; apply list_elem_of_further, list_elem_of_here).
  split; [exact Hwf|]. split; [reflexivity|]. split; [reflexivity|].
  split; [exact Hty|].
  exact (proj1 (Serve_dial_failure env f 3 pf e true Hwf eq_refl eq_refl Hty)).
Defined.

(** X9. A session that ends with a QUIC idle timeout makes [Serve] ask for
    another edge address without counting a retry and, when the backoff
    timer fires, no tunnel has connected with the current protocol, and the
    selector has a fallback other than the protocol in use, switch that
    tunnel to the fallback protocol at once, whatever retries are left:
    the protocol fallback ends in fallback, on the fallback protocol. *)
Theorem Serve_idle_timeout_falls_back
    (env : serveEnv) (f : ipAddrFallback) (i : Z) (pf : protocolFallback)
    (e : error) (flag : bool) (alt : connection.Protocol) :
  GetAddr env = None →
  serveConnection env = Returned (Some e) flag →
  dynType e = IdleTimeoutError →
  isContextCanceled (view env) e = false →
  isUnrecoverableError (view env) e = false →
  GetDifferentAddr env = None →
  GetMaxBackoffDuration env = true →
  fired env = ServeBackoffTimer →
  HasConnectedWithCurrent env = false →
  connection.Fallback (ProtocolSelector env) = (alt, true) →
  protocol pf ≠ alt →
  let r := Serve env f i pf in
  served r = Some e ∧
  rotated r = true ∧
  handlerAfter r = f ∧
  protocol (fallbackAfter r) = alt ∧
  inFallback (fallbackAfter r) = true.
Proof.
  intros Haddr Hconn Hty Hcanc Hunrec Hdiff Hmax Hfired Hconnected Hfb Hproto r.
  subst r. unfold Serve. rewrite Haddr, Hconn.
  destruct e as [ty msg inner]. simpl in Hty. subst ty.
  simpl. rewrite Hcanc, Hunrec, Hdiff, Hmax, Hfired, Hconnected. simpl.
  set (pf2 := withBackoffHandler _ _).
  assert (Hp2 : protocol pf2 = protocol pf)
    by (subst pf2; by destruct (registered env)).
  rewrite selectNextProtocol_cases.
  assert (Hguard : fallbackGuard pf2 (ProtocolSelector env)
                     (Some (mkError IdleTimeoutError msg inner)) = true).
  { unfold fallbackGuard. rewrite Hfb. simpl.
    apply orb_true_iff. right.
    reflexivity. }
  rewrite Hguard, Hfb. simpl.
  rewrite bool_decide_eq_false_2; [done|].
  simpl in Hp2. by rewrite Hp2.
Qed.

(** X9, on a tunnel that uses QUIC and may fall back to HTTP2. *)
Lemma Serve_idle_timeout_falls_back_witness :
  let e := mkError IdleTimeoutError "timeout: no recent network activity" None in
  let env := quicBlockedEnv (Returned (Some e) true) in
  let pf := {| BackoffHandler := retry.NewBackoff 5;
               protocol := connection.QUIC; inFallback := false |} in
  dynType e = IdleTimeoutError ∧
  protocol pf ≠ connection.HTTP2 ∧
  protocol (fallbackAfter (Serve env (NewIPAddrFallback 8) 0 pf))
  = connection.HTTP2.
Proof.
  intros e env pf.
  assert (Hp : protocol pf ≠ connection.HTTP2) by (intros H; discriminate H).
  split; [reflexivity|]. split; [exact Hp|].
  pose proof (Serve_idle_timeout_falls_back env (NewIPAddrFallback 8) 0 pf e true
                connection.HTTP2 eq_refl eq_refl eq_refl eq_refl eq_refl eq_refl
                eq_refl eq_refl eq_refl eq_refl Hp) as H.
  exact (proj1 (proj2 (proj2 (proj2 H)))).
Defined.

(** X10. [Serve] changes the protocol of a tunnel only along one path: the
    edge address was obtained, retries were left, the backoff timer fired
    (neither the context nor graceful shutdown came first) and no tunnel
    has yet connected with the selector's current protocol. *)
Theorem Serve_changes_protocol_only_after_timer
    (env : serveEnv) (f : ipAddrFallback) (i : Z) (pf : protocolFallback) :
  protocol (fallbackAfter (Serve env f i pf)) ≠ protocol pf →
  GetAddr env = None ∧
  GetMaxBackoffDuration env = true ∧
  fired env = ServeBackoffTimer ∧
  HasConnectedWithCurrent env = false ∧
  protocolSelected (Serve env f i pf) = true.
Proof.
  unfold Serve.
  destruct (GetAddr env) as [e0|]; [done|].
  assert (Hp1 : protocol (if registered env then reset pf else pf) = protocol pf)
    by (by destruct (registered env)).
  destruct (serveTunnel (view env) (serveConnection env)) as [err should].
  destruct (ShouldGetNewAddress f i err) as [f1 [rot cErr]].
  destruct (if rot then GetDifferentAddr env else None) as [e1|]; simpl;
    [by rewrite Hp1|].
  destruct (GetMaxBackoffDuration env); simpl; [|by rewrite Hp1].
  destruct (fired env) as [ctxErr| |]; simpl; try by rewrite Hp1.
  destruct (negb _); simpl; [by rewrite Hp1|].
  destruct (HasConnectedWithCurrent env); simpl; [by rewrite Hp1|].
  done.
Qed.

(** X10, on the idle timeout that takes a QUIC tunnel to HTTP2. *)
Lemma Serve_changes_protocol_only_after_timer_witness :
  let e := mkError IdleTimeoutError "timeout: no recent network activity" None in
  let env := quicBlockedEnv (Returned (Some e) true) in
  let pf := {| BackoffHandler := retry.NewBackoff 5;
               protocol := connection.QUIC; inFallback := false |} in
  protocol (fallbackAfter (Serve env (NewIPAddrFallback 8) 0 pf)) ≠ protocol pf ∧
  fired env = ServeBackoffTimer.
Proof.
  intros e env pf.
  assert (Hne : protocol (fallbackAfter (Serve env (NewIPAddrFallback 8) 0 pf))
                ≠ protocol pf) by (intros H; discriminate H).
  split; [exact Hne|].
  exact (proj1 (proj2 (proj2
    (Serve_changes_protocol_only_after_timer env (NewIPAddrFallback 8) 0 pf Hne)))).
Defined.

(** X11. [Serve] returns a nil error only when the edge address was
    obtained and either the session itself ended without an error to pass
    on, or graceful shutdown was signalled while [Serve] waited for its
    backoff timer. *)
Theorem Serve_returns_nil_only
    (env : serveEnv) (f : ipAddrFallback) (i : Z) (pf : protocolFallback) :
  served (Serve env f i pf) = None →
  GetAddr env = None ∧
  ((serveTunnel (view env) (serveConnection env)).1 = None ∨
   (GetMaxBackoffDuration env = true ∧ fired env = ServeGracefulShutdown)).
Proof.
  unfold Serve.
  destruct (GetAddr env) as [e0|]; [done|].
  destruct (serveTunnel (view env) (serveConnection env)) as [err should].
  destruct (ShouldGetNewAddress f i err) as [f1 [rot cErr]].
  destruct (if rot then GetDifferentAddr env else None) as [e1|]; simpl;
    [done|].
  destruct (GetMaxBackoffDuration env); simpl; [|by auto].
  destruct (fired env) as [ctxErr| |]; simpl; [done|by auto|].
  destruct (negb _); simpl; [by auto|].
  destruct (HasConnectedWithCurrent env); simpl; by auto.
Qed.

(** X11, on a session that graceful shutdown ends while it is registered. *)
Lemma Serve_returns_nil_only_witness :
  let env := quicBlockedEnv (Returned None false) in
  let pf := {| BackoffHandler := retry.NewBackoff 5;
               protocol := connection.QUIC; inFallback := false |} in
  served (Serve env (NewIPAddrFallback 8) 0 pf) = None ∧
  GetAddr env = None.
Proof.
  intros env pf.
  assert (Hnil : served (Serve env (NewIPAddrFallback 8) 0 pf) = None)
    by reflexivity.
  split; [exact Hnil|].
  exact (proj1 (Serve_returns_nil_only env (NewIPAddrFallback 8) 0 pf Hnil)).
Defined.

(** ** The edge-address handler over many calls *)

Section ipAddrFallback_sequences.

Implicit Types (f g : ipAddrFallback) (i j : Z) (err : option error).

Lemma ShouldGetNewAddress_seq_app f (l1 l2 : list (Z * option error)) :
  ShouldGetNewAddress_seq f (l1 ++ l2)
  = ShouldGetNewAddress_seq (ShouldGetNewAddress_seq f l1) l2.
Proof.
  revert f. induction l1 as [|[i err] l1 IH]; intros f; simpl; [done|].
  apply IH.
Qed.

Lemma ShouldGetNewAddress_seq_one f i err :
  ShouldGetNewAddress_seq f [(i, err)] = (ShouldGetNewAddress f i err).1.
Proof. done. Qed.

Lemma ShouldGetNewAddress_retriesOf_other f i j err :
  j ≠ i → retriesOf (ShouldGetNewAddress f j err).1 i = retriesOf f i.
Proof.
  intros Hne. unfold retriesOf.
  by rewrite ShouldGetNewAddress_frame.
Qed.

(** On a dial error the counter of the index is a function of its old
    value and of the maximum. *)
Lemma ShouldGetNewAddress_retriesOf_dial f i err :
  isDialFailure err = true →
  retriesOf (ShouldGetNewAddress f i err).1 i
  = if maxRetries f <=? retriesOf f i then 0
    else uint8 (retriesOf f i + 1).
Proof.
  intros Hd. destruct err as [e|]; [|done].
  assert (Hty : dynType e ∈ [DialError; EdgeQuicDialError]).
  { simpl in Hd. apply orb_true_iff in Hd as [Hd|Hd];
      apply bool_decide_eq_true in Hd; rewrite Hd; set_solver. }
  rewrite (ShouldGetNewAddress_dial f i e Hty).
  destruct (maxRetries f <=? retriesOf f i); simpl;
    by rewrite retriesOf_setRetries_eq.
Qed.

End ipAddrFallback_sequences.

(** X12. On a fresh handler, consecutive dial errors on one connection
    index are answered with [reachedMaxRetries] periodically: after [k]
    such calls the stored counter is [k mod (maxRetries + 1)], so that
    call number [k + 1] reports that the maximum is reached exactly when
    [k + 1] is a multiple of [maxRetries + 1]. *)
Theorem ShouldGetNewAddress_period
    (maxR i : Z) (e : error) (k : nat) :
  is_uint8 maxR →
  dynType e ∈ [DialError; EdgeQuicDialError] →
  let f := ShouldGetNewAddress_seq (NewIPAddrFallback maxR)
             (replicate k (i, Some e)) in
  retriesOf f i = Z.of_nat k mod (maxR + 1) ∧
  (ShouldGetNewAddress f i (Some e)).2
  = (true, Some (NewConnectivityError
                   (bool_decide ((Z.of_nat k + 1) mod (maxR + 1) = 0)))).
Proof.
  intros [Hm0 Hm1] Hty f.
  assert (Hcount : ∀ n,
            retriesOf (ShouldGetNewAddress_seq (NewIPAddrFallback maxR)
                         (replicate n (i, Some e))) i
            = Z.of_nat n mod (maxR + 1)).
  { induction n as [|n IH].
    - simpl. unfold retriesOf. simpl. rewrite lookup_empty. simpl.
      by rewrite Z.mod_0_l by lia.
    - rewrite replicate_S_end, ShouldGetNewAddress_seq_app,
        ShouldGetNewAddress_seq_one.
      rewrite ShouldGetNewAddress_retriesOf_dial.
      2:{ destruct e as [ty msg inner]. simpl in *.
          set_unfold in Hty. by destruct Hty as [->|[->|[]]]. }
      rewrite ShouldGetNewAddress_seq_maxRetries. simpl. rewrite IH.
      pose proof (Z.mod_pos_bound (Z.of_nat n) (maxR + 1) ltac:(lia)) as Hb.
      replace (Z.of_nat (S n)) with (Z.of_nat n + 1) by lia.
      destruct (Z.leb_spec maxR (Z.of_nat n mod (maxR + 1))) as [Hle|Hlt].
      + symmetry. apply Z.mod_divide; [lia|].
        exists (Z.of_nat n / (maxR + 1) + 1).
        pose proof (Z.div_mod (Z.of_nat n) (maxR + 1) ltac:(lia)). nia.
      + unfold uint8. rewrite (Z.mod_small _ 256) by lia.
        apply (Z.mod_unique _ _ (Z.of_nat n / (maxR + 1))); [lia|].
        pose proof (Z.div_mod (Z.of_nat n) (maxR + 1) ltac:(lia)). nia. }
  split; [apply Hcount|].
  rewrite (ShouldGetNewAddress_dial f i e Hty).
  subst f. rewrite ShouldGetNewAddress_seq_maxRetries, Hcount. simpl.
  pose proof (Z.mod_pos_bound (Z.of_nat k) (maxR + 1) ltac:(lia)) as Hb.
  pose proof (Z.div_mod (Z.of_nat k) (maxR + 1) ltac:(lia)) as Hdm.
  destruct (Z.leb_spec maxR (Z.of_nat k mod (maxR + 1))) as [Hle|Hlt]; simpl.
  - rewrite bool_decide_eq_true_2; [done|].
    apply Z.mod_divide; [lia|].
    exists (Z.of_nat k / (maxR + 1) + 1). nia.
  - rewrite bool_decide_eq_false_2; [done|].
    intros Hzero.
    assert (Hsmall : (Z.of_nat k + 1) mod (maxR + 1)
                     = Z.of_nat k mod (maxR + 1) + 1).
    { symmetry.
      apply (Z.mod_unique _ _ (Z.of_nat k / (maxR + 1))); [lia|nia]. }
    lia.
Qed.

(** X12, for a handler allowing two retries after five dial errors on
    index 0: the sixth is answered with [reachedMaxRetries]. *)
Lemma ShouldGetNewAddress_period_witness :
  let e := mkError DialError "dial tcp: i/o timeout" None in
  is_uint8 2 ∧
  dynType e ∈ [DialError; EdgeQuicDialError] ∧
  (ShouldGetNewAddress
     (ShouldGetNewAddress_seq (NewIPAddrFallback 2) (replicate 5 (0, Some e)))
     0 (Some e)).2
  = (true, Some (NewConnectivityError
                   (bool_decide ((Z.of_nat 5 + 1) mod (2 + 1) = 0)))).
Proof.
  intros e.
  assert (H2 : is_uint8 2) by (unfold is_uint8; lia).
  assert (Hty : dynType e ∈ [DialError; EdgeQuicDialError])
    by (simpl; apply list_elem_of_here).
  split; [exact H2|]. split; [exact Hty|].
  exact (proj2 (ShouldGetNewAddress_period 2 0 e 5 H2 Hty)).
Defined.

(** X13. The connection indices do not interfere: after any sequence of
    calls on a handler, the retry counter of an index is what it would be
    had the handler only seen the dial errors ([DialError] and
    [*EdgeQuicDialError]) reported for that index. *)
Theorem ShouldGetNewAddress_per_index
    (f : ipAddrFallback) (calls : list (Z * option error)) (i : Z) :
  retriesOf (ShouldGetNewAddress_seq f calls) i
  = retriesOf
      (ShouldGetNewAddress_seq f
         (filter (λ c, c.1 = i ∧ isDialFailure c.2 = true) calls)) i.
Proof.
  assert (Hgen : ∀ calls f g,
            maxRetries f = maxRetries g →
            retriesOf f i = retriesOf g i →
            retriesOf (ShouldGetNewAddress_seq f calls) i
            = retriesOf
                (ShouldGetNewAddress_seq g
                   (filter (λ c, c.1 = i ∧ isDialFailure c.2 = true) calls)) i).
  { clear. intros calls.
    induction calls as [|[j err] rest IH]; intros f g Hm Hr; simpl; [done|].
    rewrite filter_cons. simpl. case_decide as Hc.
    - destruct Hc as [-> Hd]. simpl. apply IH.
      + by rewrite !ShouldGetNewAddress_maxRetries.
      + rewrite !ShouldGetNewAddress_retriesOf_dial by done.
        by rewrite Hm, Hr.
    - apply IH.
      + by rewrite ShouldGetNewAddress_maxRetries.
      + rewrite <- Hr.
        destruct (decide (j = i)) as [->|Hne].
        * rewrite ShouldGetNewAddress_other_error; [done|].
          destruct (isDialFailure err); [|done]. exfalso. by apply Hc.
        * by apply ShouldGetNewAddress_retriesOf_other. }
  by apply Hgen.
Qed.

(** ** The edge dialer as its callers see it *)

(** X14. [DialEdgeWithProxy] returns either a connection or an error, never
    both and never neither, and every error it returns is a [DialError]:
    the edge-address handler therefore answers it by asking for another
    address and reporting a connectivity error. *)
Theorem DialEdgeWithProxy_result
    (w : world) (edgeTCPAddr : string) (localIP : IP) (proxyURL : string)
    (log : list netEvent) :
  let r := (DialEdgeWithProxy w edgeTCPAddr localIP proxyURL log).1 in
  (is_Some r.1 ↔ r.2 = None) ∧
  (∀ e, r.2 = Some e →
        dynType e = DialError ∧
        ∀ f i, (ShouldGetNewAddress f i (Some e)).2.1 = true ∧
               is_Some (ShouldGetNewAddress f i (Some e)).2.2).
Proof.
  intros r.
  assert (Hshape :
    (∃ c, r = (Some (TLSConn c), None)) ∨
    (∃ e msg, r = (None, Some (newDialError e msg)))).
  { subst r.
    destruct (proxy_attempt_cases w proxyURL edgeTCPAddr localIP)
      as [Hno|[Hfail|(Hurl & u & c & Hparse & Hmk & Hdial)]].
    - rewrite DialEdgeWithProxy_direct by (by left).
      destruct (net_DialContext w localIP edgeTCPAddr) as [c|e]; [|eauto].
      destruct (tls_Handshake w c) as [e|]; eauto.
    - rewrite DialEdgeWithProxy_direct by (by right).
      destruct (net_DialContext w localIP edgeTCPAddr) as [c|e]; [|eauto].
      destruct (tls_Handshake w c) as [e|]; eauto.
    - rewrite (DialEdgeWithProxy_proxied w _ _ _ _ u c) by done.
      destruct (tls_Handshake w c) as [e|]; eauto. }
  clearbody r. destruct Hshape as [[c ->]|(e & msg & ->)]; cbn [fst snd].
  - split; [split; eauto|]. done.
  - split; [split; [by intros [? ?]|done]|].
    intros e' Heq. injection Heq as <-. split; [done|]. intros f i.
    rewrite (ShouldGetNewAddress_dial f i (newDialError e msg))
      by (simpl; apply list_elem_of_here).
    destruct (maxRetries f <=? retriesOf f i); simpl; eauto.
Qed.

(** X15. Once the dial through the SOCKS5 proxy has yielded a connection,
    [DialEdgeWithProxy] never tries the direct route: the outcome is that
    of the TLS handshake over the proxied connection alone, and when that
    handshake fails the [DialError] is returned although no direct dial was
    made. *)
Theorem DialEdgeWithProxy_proxied_never_direct
    (w : world) (edgeTCPAddr : string) (localIP : IP) (proxyURL : string)
    (u : URL) (c : conn) :
  proxyURL ≠ "" →
  url_Parse w proxyURL = inl u →
  proxy_SOCKS5 w (proxyDialerFor u localIP) = None →
  proxyDial w (proxyDialerFor u localIP) edgeTCPAddr = inl c →
  let r := DialEdgeWithProxy w edgeTCPAddr localIP proxyURL [] in
  (∀ c', OpenedDirect c' ∉ r.2) ∧
  openedConns r.2 = [c] ∧
  (tls_Handshake w c = None → r.1 = (Some (TLSConn c), None)) ∧
  (∀ e, tls_Handshake w c = Some e →
        r.1 = (None, Some (newDialError e "TLS handshake with edge error"))).
Proof.
  intros Hurl Hparse Hmk Hdial r. subst r.
  rewrite (DialEdgeWithProxy_proxied w _ _ _ _ u c) by done.
  destruct (tls_Handshake w c) as [e|]; simpl;
    (split; [intros c' Hin; set_unfold in Hin; naive_solver|]);
    (split; [done|]); split; try done; congruence.
Qed.

(** X15, with a proxy that connects and an edge that refuses the
    handshake. *)
Lemma DialEdgeWithProxy_proxied_never_direct_witness :
  let w := {| url_Parse := λ _,
                inl {| User := None; Host := "proxy:1080";
                       Hostname := "proxy"; Port := "1080" |};
              proxy_SOCKS5 := λ _, None;
              isContextDialer := λ _, true;
              socks5_DialContext := λ _ _, inl 4%nat;
              socks5_Dial := λ _ _, inl 4%nat;
              net_DialContext := λ _ _, inl 5%nat;
              tls_Handshake := λ _,
                Some (mkError PlainError "tls: handshake failure" None) |} in
  let u := {| User := None; Host := "proxy:1080";
              Hostname := "proxy"; Port := "1080" |} in
  let proxyURL := "socks5://proxy:1080" in
  proxyURL ≠ "" ∧
  url_Parse w proxyURL = inl u ∧
  proxy_SOCKS5 w (proxyDialerFor u None) = None ∧
  proxyDial w (proxyDialerFor u None) "198.41.192.167:7844" = inl 4%nat ∧
  openedConns (DialEdgeWithProxy w "198.41.192.167:7844" None proxyURL []).2
  = [4%nat].
Proof.
  intros w u proxyURL.
  assert (Hurl : proxyURL ≠ "") by (intros H; discriminate H).
  split; [exact Hurl|]. split; [reflexivity|]. split; [reflexivity|].
  split; [reflexivity|].
  exact (proj1 (proj2 (DialEdgeWithProxy_proxied_never_direct
                         w "198.41.192.167:7844" None proxyURL u 4%nat
                         Hurl eq_refl eq_refl eq_refl))).
Defined.

(** X16. With an empty proxy URL, [DialEdgeWithProxy] is the direct-only
    dialer: what it returns and does depends on the direct dial and on the
    TLS handshake only, not on anything about proxies, and it opens no
    connection through a proxy. *)
Theorem DialEdge_ignores_proxy
    (w w' : world) (edgeTCPAddr : string) (localIP : IP)
    (log : list netEvent) :
  (∀ ip a, net_DialContext w ip a = net_DialContext w' ip a) →
  (∀ c, tls_Handshake w c = tls_Handshake w' c) →
  DialEdgeWithProxy w edgeTCPAddr localIP "" log
  = DialEdgeWithProxy w' edgeTCPAddr localIP "" log ∧
  ∀ c, OpenedViaProxy c ∈ (DialEdge w edgeTCPAddr localIP log).2 →
       OpenedViaProxy c ∈ log.
Proof.
  intros Hdial Htls. unfold DialEdge.
  rewrite !DialEdgeWithProxy_direct by (by left).
  rewrite <- Hdial.
  destruct (net_DialContext w localIP edgeTCPAddr) as [c|e]; [|done].
  rewrite <- Htls.
  split; [done|].
  destruct (tls_Handshake w c); simpl; intros c' Hin;
    set_unfold in Hin; naive_solver.
Qed.

(** X16, between the world whose proxy is down and a world with a working
    proxy. *)
Lemma DialEdge_ignores_proxy_witness :
  let w' := {| url_Parse := url_Parse proxyDownWorld;
               proxy_SOCKS5 := λ _, None;
               isContextDialer := λ _, false;
               socks5_DialContext := λ _ _, inl 9%nat;
               socks5_Dial := λ _ _, inl 9%nat;
               net_DialContext := net_DialContext proxyDownWorld;
               tls_Handshake := tls_Handshake proxyDownWorld |} in
  (∀ ip a, net_DialContext proxyDownWorld ip a = net_DialContext w' ip a) ∧
  (∀ c, tls_Handshake proxyDownWorld c = tls_Handshake w' c) ∧
  DialEdgeWithProxy proxyDownWorld "198.41.192.167:7844" None "" []
  = DialEdgeWithProxy w' "198.41.192.167:7844" None "" [].
Proof.
  intros w'.
  assert (H1 : ∀ ip a, net_DialContext proxyDownWorld ip a
                       = net_DialContext w' ip a) by reflexivity.
  assert (H2 : ∀ c, tls_Handshake proxyDownWorld c = tls_Handshake w' c)
    by reflexivity.
  split; [exact H1|]. split; [exact H2|].
  exact (proj1 (DialEdge_ignores_proxy proxyDownWorld w'
                  "198.41.192.167:7844" None [] H1 H2)).
Defined.

(** X17. The deadline discipline of [DialEdgeWithProxy]: the handshake
    always runs under an armed deadline, and the deadline is cleared
    exactly when a connection is returned. On success the whole of what the
    call does is: open one connection, arm the deadline, shake hands, clear
    the deadline. *)
Theorem DialEdgeWithProxy_deadline
    (w : world) (edgeTCPAddr : string) (localIP : IP) (proxyURL : string) :
  let r := DialEdgeWithProxy w edgeTCPAddr localIP proxyURL [] in
  (∀ c, Handshake c ∈ r.2 → SetDeadline c true ∈ r.2) ∧
  (∀ c, SetDeadline c false ∈ r.2 ↔ r.1.1 = Some (TLSConn c)) ∧
  (∀ c, r.1.1 = Some (TLSConn c) →
        ∃ opening, (opening = OpenedDirect c ∨ opening = OpenedViaProxy c) ∧
                   r.2 = [opening; SetDeadline c true; Handshake c;
                          SetDeadline c false]).
Proof.
  intros r. subst r.
  destruct (proxy_attempt_cases w proxyURL edgeTCPAddr localIP)
    as [Hno|[Hfail|(Hurl & u & c & Hparse & Hmk & Hdial)]].
  - rewrite DialEdgeWithProxy_direct by (by left).
    destruct (net_DialContext w localIP edgeTCPAddr) as [c|e];
      [destruct (tls_Handshake w c) as [e|]|]; simpl;
      (split; [intros c' Hin; set_unfold in Hin; set_unfold; naive_solver|]);
      (split; [intros c'; set_unfold; naive_solver|]);
      intros c' [= <-]; eauto.
  - rewrite DialEdgeWithProxy_direct by (by right).
    destruct (net_DialContext w localIP edgeTCPAddr) as [c|e];
      [destruct (tls_Handshake w c) as [e|]|]; simpl;
      (split; [intros c' Hin; set_unfold in Hin; set_unfold; naive_solver|]);
      (split; [intros c'; set_unfold; naive_solver|]);
      intros c' [= <-]; eauto.
  - rewrite (DialEdgeWithProxy_proxied w _ _ _ _ u c) by done.
    destruct (tls_Handshake w c) as [e|]; simpl;
      (split; [intros c' Hin; set_unfold in Hin; set_unfold; naive_solver|]);
      (split; [intros c'; set_unfold; naive_solver|]);
      intros c' [= <-]; eauto.
Qed.

(** ** Protocol selection and the first tunnel, further *)

(** X18. [selectNextProtocol] never takes a tunnel out of fallback, and
    when it says to go on retrying the tunnel is either in fallback or on
    the selector's current protocol. When it says to stop, it has changed
    nothing. *)
Theorem selectNextProtocol_outcome
    (pf : protocolFallback) (selector : connection.ProtocolSelector)
    (cause : option error) :
  let r := selectNextProtocol pf selector cause in
  (inFallback pf = true → inFallback r.1 = true) ∧
  (r.2 = true →
   inFallback r.1 = true ∨ protocol r.1 = connection.Current selector) ∧
  (r.2 = false → r.1 = pf) ∧
  (protocol r.1 ≠ protocol pf →
   (protocol r.1 = (connection.Fallback selector).1 ∧ inFallback r.1 = true) ∨
   (protocol r.1 = connection.Current selector ∧ inFallback r.1 = false)).
Proof.
  intros r. subst r. rewrite selectNextProtocol_cases.
  destruct (fallbackGuard pf selector cause).
  - destruct (negb _ || bool_decide _); simpl; naive_solver.
  - destruct (inFallback pf) eqn:Hin; simpl; naive_solver.
Qed.

(** X19. A tunnel that fell back and then connected ([reset()] after
    [fallback(p)]) keeps the fallback protocol but is out of fallback, and
    the next protocol selection takes it back to the selector's current
    protocol unless the fallback guard holds again. *)
Theorem selectNextProtocol_after_reset
    (pf : protocolFallback) (p : connection.Protocol)
    (selector : connection.ProtocolSelector) (cause : option error) :
  fallbackGuard (reset (fallback pf p)) selector cause = false →
  protocol (reset (fallback pf p)) = p ∧
  inFallback (reset (fallback pf p)) = false ∧
  (selectNextProtocol (reset (fallback pf p)) selector cause).2 = true ∧
  protocol (selectNextProtocol (reset (fallback pf p)) selector cause).1
  = connection.Current selector ∧
  inFallback (selectNextProtocol (reset (fallback pf p)) selector cause).1
  = false.
Proof.
  intros Hguard. rewrite selectNextProtocol_cases, Hguard. simpl. done.
Qed.

(** X19, for a tunnel that fell back to HTTP2, connected, and then failed
    with an ordinary error while QUIC is the current protocol. *)
Lemma selectNextProtocol_after_reset_witness :
  let pf := {| BackoffHandler := retry.NewBackoff 5;
               protocol := connection.QUIC; inFallback := false |} in
  let selector := {| connection.Current := connection.QUIC;
                     connection.Fallback := (connection.HTTP2, true) |} in
  let cause := Some (mkError PlainError "connection reset by peer" None) in
  fallbackGuard (reset (fallback pf connection.HTTP2)) selector cause = false ∧
  protocol (selectNextProtocol (reset (fallback pf connection.HTTP2))
              selector cause).1 = connection.QUIC.
Proof.
  intros pf selector cause.
  assert (Hg : fallbackGuard (reset (fallback pf connection.HTTP2))
                 selector cause = false) by reflexivity.
  split; [exact Hg|].
  exact (proj1 (proj2 (proj2 (proj2
    (selectNextProtocol_after_reset pf connection.HTTP2 selector cause Hg))))).
Defined.

(** What [startFirstTunnel] reports when it returns is the error of the
    call of [Serve] it has just made. *)
Lemma firstTunnelPass_returns (isStaticEdge : bool) (a : attempt)
    (err : option error) :
  firstTunnelPass isStaticEdge a = Some err → err = serveErr a.
Proof.
  unfold firstTunnelPass.
  destruct (ctxCancelled a); [by intros [= <-]|].
  destruct (serveErr a) as [e|]; [|by intros [= <-]].
  destruct (retryLeft a); simpl; [|by intros [= <-]].
  destruct (strings_Contains (Error e) "Unauthorized"); [done|].
  destruct (dynType e), isStaticEdge; simpl; try done; by intros [= <-].
Qed.

(** X20. The retry policy of the first tunnel, in full: after a call of
    [Serve] the loop of [startFirstTunnel] goes round again exactly when
    the context is not cancelled, [Serve] returned an error, retries are
    left, and the error either mentions "Unauthorized", or is of one of the
    eight types the loop lists, or is an [ErrNoAddressesLeft] under a
    static edge configuration; in every other case it returns, reporting
    the error of that call. *)
Theorem firstTunnelPass_policy (isStaticEdge : bool) (a : attempt) :
  (firstTunnelPass isStaticEdge a = None ↔
   ctxCancelled a = false ∧
   retryLeft a = true ∧
   ∃ e, serveErr a = Some e ∧
        (strings_Contains (Error e) "Unauthorized" = true ∨
         dynType e ∈ [DupConnRegisterTunnelError; IdleTimeoutError;
                      ApplicationError; DialError; EdgeQuicDialError;
                      ControlStreamError; StreamListenerError;
                      DatagramManagerError] ∨
         (dynType e = ErrNoAddressesLeft ∧ isStaticEdge = true))) ∧
  (∀ err, firstTunnelPass isStaticEdge a = Some err → err = serveErr a).
Proof.
  split; [|apply firstTunnelPass_returns].
  unfold firstTunnelPass.
  destruct a as [err ctx retry]; simpl.
  destruct ctx; [split; [done|by intros [? _]]|].
  destruct err as [e|]; [|split; [done|by intros (_ & _ & e & ? & _)]].
  destruct retry; simpl; [|split; [done|by intros (_ & ? & _)]].
  destruct (strings_Contains (Error e) "Unauthorized") eqn:Hmsg.
  { split; [|done]. intros _. split; [done|]. split; [done|].
    exists e. split; [done|]. by left. }
  destruct e as [ty msg inner]. simpl in *.
  split.
  - intros Hnone. split; [done|]. split; [done|].
    eexists. split; [reflexivity|]. right. simpl.
    destruct ty, isStaticEdge; simpl in Hnone; try discriminate Hnone;
      first [left; by apply (bool_decide_unpack _)|right; done].
  - intros (_ & _ & e' & Heq & Hcases). injection Heq as <-. simpl in Hcases.
    destruct Hcases as [Hu|[Hl|[-> ->]]]; [by rewrite Hmsg in Hu| |done].
    destruct ty; simpl; try reflexivity;
      exfalso; revert Hl; by apply (bool_decide_unpack (¬ _)).
Qed.

(** X21. What [startFirstTunnel] reports is the error of its last call of
    [Serve]: when it returns after [n] calls, [n] is at least one and at
    most the number of calls it was given outcomes for, the error it sends
    is the one the [n]-th call returned, and after each earlier call the
    loop went round. In particular it reports a nil error only if its last
    [Serve] returned nil. *)
Theorem startFirstTunnel_reports_last
    (isStaticEdge : bool) (attempts : list attempt) (n : nat)
    (err : option error) :
  startFirstTunnel isStaticEdge attempts = Finished n err →
  ∃ a, (1 ≤ n ≤ length attempts)%nat ∧
       attempts !! (n - 1)%nat = Some a ∧
       serveErr a = err ∧
       firstTunnelPass isStaticEdge a = Some err ∧
       ∀ k b, (k < n - 1)%nat → attempts !! k = Some b →
              firstTunnelPass isStaticEdge b = None.
Proof.
  unfold startFirstTunnel.
  assert (Hgen : ∀ attempts m,
            startFirstTunnel_from isStaticEdge m attempts = Finished n err →
            ∃ a, (m + 1 ≤ n ≤ m + length attempts)%nat ∧
                 attempts !! (n - 1 - m)%nat = Some a ∧
                 serveErr a = err ∧
                 firstTunnelPass isStaticEdge a = Some err ∧
                 ∀ k b, (k < n - 1 - m)%nat → attempts !! k = Some b →
                        firstTunnelPass isStaticEdge b = None).
  { clear attempts. intros attempts.
    induction attempts as [|a rest IH]; intros m Hrun; simpl in Hrun;
      [done|].
    destruct (firstTunnelPass isStaticEdge a) as [e|] eqn:Hpass.
    - injection Hrun as <- <-. exists a.
      replace (S m - 1 - m)%nat with 0%nat by lia. simpl.
      split; [lia|]. split; [done|].
      split; [symmetry; by apply (firstTunnelPass_returns isStaticEdge a)|].
      split; [done|]. intros k b Hk. lia.
    - destruct (IH (S m) Hrun) as (b & Hn & Hb & Herr & Hbp & Hearlier).
      exists b. simpl.
      replace (n - 1 - m)%nat with (S (n - 1 - S m)) by lia. simpl.
      split; [lia|]. split; [done|]. split; [done|]. split; [done|].
      intros k c Hk Hc. destruct k as [|k]; simpl in Hc.
      + by injection Hc as <-.
      + apply (Hearlier k c); [lia|done]. }
  intros Hrun. destruct (Hgen attempts 0%nat Hrun)
    as (a & Hn & Ha & Herr & Hpass & Hearlier).
  exists a. rewrite Nat.sub_0_r in Ha.
  split; [lia|]. split; [done|]. split; [done|]. split; [done|].
  intros k b Hk Hb. apply (Hearlier k b); [lia|done].
Qed.

(** X21, on two "Unauthorized" answers followed by a permanent
    registration failure. *)
Lemma startFirstTunnel_reports_last_witness :
  let unauthorized :=
    {| serveErr := Some (mkError PlainError "Unauthorized: Invalid tunnel secret" None);
       ctxCancelled := false; retryLeft := true |} in
  let failure := mkError PlainError "tunnel credentials rejected" None in
  let last := {| serveErr := Some failure; ctxCancelled := false;
                 retryLeft := true |} in
  startFirstTunnel false [unauthorized; unauthorized; last]
  = Finished 3 (Some failure) ∧
  ∃ a, [unauthorized; unauthorized; last] !! 2%nat = Some a ∧
       serveErr a = Some failure.
Proof.
  intros unauthorized failure last.
  assert (Hrun : startFirstTunnel false [unauthorized; unauthorized; last]
                 = Finished 3 (Some failure)) by reflexivity.
  split; [exact Hrun|].
  destruct (startFirstTunnel_reports_last false _ 3 (Some failure) Hrun)
    as (a & _ & Ha & Herr & _).
  exists a. split; [exact Ha|exact Herr].
Defined.

(** ** Registering and unregistering a connecting tunnel *)

(** X22. While the channels held in [tunnelsConnecting] are the ones made
    so far, as they are throughout [Run], the channel that
    [newConnectedTunnelSignal(i)] makes for [i] is a new one: no index
    holds it before, and only [i] holds it afterwards. Registering a tunnel
    in this way and then taking it out with [waitForNextTunnel(i)] restores
    the connecting set as it was without [i], and [waitForNextTunnel] says
    that more tunnels are connecting exactly when some other index is. *)
Theorem newConnectedTunnelSignal_then_wait
    (order : nat) (s : Supervisor) (i : Z) :
  signalsDistinct s →
  let s1 := (newConnectedTunnelSignal s i).1 in
  let r := waitForNextTunnel order s1 i in
  (newConnectedTunnelSignal s i).2 = chansMade s ∧
  (∀ j, tunnelsConnecting s !! j ≠ Some (chansMade s)) ∧
  (∀ j, tunnelsConnecting s1 !! j = Some (chansMade s) ↔ j = i) ∧
  signalsDistinct s1 ∧
  nextConnectedIndex s1 = i ∧
  nextConnectedSignal s1 = Some (chansMade s) ∧
  tunnelsConnecting r.1 = delete i (tunnelsConnecting s) ∧
  tunnelsConnecting r.1 !! i = None ∧
  (r.2 = true ↔ ∃ j sig, j ≠ i ∧ tunnelsConnecting s !! j = Some sig).
Proof.
  intros Hdist s1 r. subst r s1.
  assert (Hfresh : ∀ j, tunnelsConnecting s !! j ≠ Some (chansMade s)).
  { intros j Hj. apply (proj1 Hdist) in Hj. lia. }
  split; [done|]. split; [exact Hfresh|].
  split.
  { intros j. simpl. split.
    - intros Hj. destruct (decide (j = i)) as [->|Hne]; [done|].
      rewrite lookup_insert_ne in Hj by done. by apply Hfresh in Hj.
    - intros ->. by rewrite lookup_insert_eq. }
  split; [by apply newConnectedTunnelSignal_distinct|].
  split; [done|]. split; [done|].
  unfold waitForNextTunnel. simpl. rewrite delete_insert_eq.
  destruct (range_first (delete i (tunnelsConnecting s)) order)
    as [[k v]|] eqn:Hr; simpl.
  - split; [done|]. split; [by rewrite lookup_delete_eq|].
    split; [|done]. intros _.
    apply range_first_Some in Hr. apply lookup_delete_Some in Hr as [Hne Hk].
    eauto.
  - split; [done|]. split; [by rewrite lookup_delete_eq|].
    split; [done|]. intros (j & sig & Hne & Hj).
    apply range_first_None in Hr.
    assert (Hdel : delete i (tunnelsConnecting s) !! j = Some sig)
      by (by rewrite lookup_delete_ne).
    rewrite Hr, lookup_empty in Hdel. done.
Qed.

(** X22, for tunnel 2 registered while tunnel 1 is connecting: its channel
    is the second one made, and taking tunnel 2 out again leaves tunnel 1,
    so that more tunnels are connecting. *)
Lemma newConnectedTunnelSignal_then_wait_witness :
  let s := (newConnectedTunnelSignal NewSupervisor 1).1 in
  signalsDistinct s ∧
  (newConnectedTunnelSignal s 2).2 = 2%positive ∧
  (∀ j, tunnelsConnecting s !! j ≠ Some 2%positive).
Proof.
  intros s.
  assert (Hnew : signalsDistinct NewSupervisor).
  { split; intros j; intros; simpl in *; by rewrite lookup_empty in *. }
  assert (Hdist : signalsDistinct s)
    by exact (newConnectedTunnelSignal_distinct NewSupervisor 1 Hnew).
  split; [exact Hdist|].
  destruct (newConnectedTunnelSignal_then_wait 0 s 2 Hdist)
    as (Hsig & Hfresh & _).
  split; [exact Hsig|exact Hfresh].
Defined.

(** ** The loop of [Run]: failed tunnels and the grace period *)

(** X23. When a tunnel whose protocol fallback is in
    [tunnelsProtocolFallback], as that of every launched tunnel is, ends
    with an error other than a [ReconnectSignal] and shutdown has not
    begun, the loop of [Run] launches nothing. If retries are left for that
    index, the index is appended to [tunnelsWaiting] and taken out of
    [tunnelsConnecting], and [backoff.BackoffTimer()] is called only if no
    timer is armed yet, so that an armed timer is never replaced. If no
    retries are left, the tunnel is given up: only the count of active
    tunnels changes. *)
Theorem runIteration_tunnel_failed
    (env : runEnv) (st : runState) (i : Z) (e : error) (pf : protocolFallback) :
  tunnelsProtocolFallback (sup st) !! i = Some pf →
  dynType e ≠ ReconnectSignal →
  shuttingDown st = false →
  ∃ st',
    runIteration env st (TunnelError i (Some e)) = Continue st' ∧
    started st' = started st ∧
    tunnelsActive st' = tunnelsActive st - 1 ∧
    tunnelsProtocolFallback (sup st') = tunnelsProtocolFallback (sup st) ∧
    (moreRetries env (Some pf) = true →
     tunnelsWaiting st' = (tunnelsWaiting st ++ [i])%list ∧
     tunnelsConnecting (sup st') = delete i (tunnelsConnecting (sup st)) ∧
     is_Some (backoffTimer st') ∧
     (is_Some (backoffTimer st) →
      backoffTimer st' = backoffTimer st ∧
      backoffTimerCalls st' = backoffTimerCalls st) ∧
     (backoffTimer st = None →
      backoffTimerCalls st' = S (backoffTimerCalls st))) ∧
    (moreRetries env (Some pf) = false →
     sup st' = sup st ∧
     tunnelsWaiting st' = tunnelsWaiting st ∧
     backoffTimer st' = backoffTimer st ∧
     backoffTimerCalls st' = backoffTimerCalls st).
Proof.
  intros Hpf Hty Hdown. unfold runIteration. simpl. rewrite Hdown. simpl.
  unfold hasReconnectSignalType. rewrite bool_decide_eq_false_2 by done.
  rewrite Hpf.
  destruct (moreRetries env _) eqn:Hmore; simpl.
  - unfold waitForNextTunnel.
    destruct (range_first (delete i (tunnelsConnecting (sup st)))
                (rangeOrder env)) as [[k v]|]; simpl;
      (eexists; split; [reflexivity|]; simpl;
       split; [done|]; split; [done|]; split; [done|]; split; [|done];
       intros _;
       split; [done|]; split; [done|];
       destruct (backoffTimer st) as [t|] eqn:Ht; simpl;
       repeat split; eauto; try done; by intros [? ?]).
  - eexists. split; [reflexivity|]. simpl. repeat split; done.
Qed.

(** X23, for tunnel 2, launched with a protocol fallback of its own,
    failing while tunnel 1 already waits for the timer. *)
Lemma runIteration_tunnel_failed_witness :
  let e := mkError PlainError "connection reset by peer" None in
  let env := {| moreRetries := λ _, true; rangeOrder := 0 |} in
  let pf := {| BackoffHandler := retry.NewBackoff 5;
               protocol := connection.QUIC;
               inFallback := false |} in
  let st := {| sup := (newConnectedTunnelSignal
                         (setProtocolFallback NewSupervisor 2 pf) 2).1;
               tunnelsWaiting := [1];
               tunnelsActive := 3; backoffTimer := Some 0%nat;
               shuttingDown := false; started := [];
               backoffTimerCalls := 1; setGracePeriodCalls := 0 |} in
  tunnelsProtocolFallback (sup st) !! 2 = Some pf ∧
  dynType e ≠ ReconnectSignal ∧
  shuttingDown st = false ∧
  ∃ st', runIteration env st (TunnelError 2 (Some e)) = Continue st' ∧
         started st' = started st ∧
         tunnelsActive st' = tunnelsActive st - 1.
Proof.
  intros e env pf st.
  assert (Hpf : tunnelsProtocolFallback (sup st) !! 2 = Some pf)
    by (vm_compute; reflexivity).
  assert (Hty : dynType e ≠ ReconnectSignal) by (intros H; discriminate H).
  split; [exact Hpf|]. split; [exact Hty|]. split; [reflexivity|].
  destruct (runIteration_tunnel_failed env st 2 e pf Hpf Hty eq_refl)
    as (st' & Hstep & Hstarted & Hactive & _).
  exists st'. split; [exact Hstep|]. split; [exact Hstarted|exact Hactive].
Defined.

(** X24. The loop of [Run] calls [backoff.SetGracePeriod()] only in the
    iteration for a connected signal, and only when that leaves no tunnel
    connecting and none waiting for the timer; no other event sets the
    grace period. *)
Theorem runIteration_SetGracePeriod
    (env : runEnv) (st : runState) (ev : runEvent) (st' : runState) :
  runIteration env st ev = Continue st' →
  setGracePeriodCalls st' ≠ setGracePeriodCalls st →
  ev = NextConnected ∧
  setGracePeriodCalls st' = S (setGracePeriodCalls st) ∧
  tunnelsConnecting (sup st') = ∅ ∧
  nextConnectedSignal (sup st') = None ∧
  tunnelsWaiting st' = [].
Proof.
  intros Hstep Hcalls.
  destruct ev as [|i err| | |]; simpl in Hstep.
  - done.
  - exfalso. destruct err as [e|].
    + destruct (shuttingDown st); simpl in Hstep.
      * case_bool_decide; by simplify_eq.
      * destruct (hasReconnectSignalType e); [by simplify_eq|].
        destruct (moreRetries env _); simpl in Hstep; [|by simplify_eq].
        destruct (waitForNextTunnel _ _ _) as [s more].
        by simplify_eq.
    + case_bool_decide; by simplify_eq.
  - exfalso. destruct (backoffTimer st); [|done].
    injection Hstep as <-. simpl in Hcalls.
    destruct (goStartTunnel_fold_fields (tunnelsWaiting st) st)
      as (_ & _ & _ & _ & _ & Hg & _). done.
  - destruct (nextConnectedSignal (sup st)); [|done].
    unfold waitForNextTunnel in Hstep.
    destruct (range_first _ _) as [[k v]|] eqn:Hr;
      injection Hstep as <-; simpl in *; [done|].
    case_bool_decide as Hw; simpl in *; [|done].
    apply range_first_None in Hr.
    split; [done|]. split; [done|]. split; [done|]. split; [done|].
    by apply nil_length_inv.
  - exfalso. injection Hstep as <-. done.
Qed.

(** X24, for the signal of the last connecting tunnel. *)
Lemma runIteration_SetGracePeriod_witness :
  let env := {| moreRetries := λ _, true; rangeOrder := 0 |} in
  let st := {| sup := (newConnectedTunnelSignal NewSupervisor 1).1;
               tunnelsWaiting := []; tunnelsActive := 2;
               backoffTimer := None; shuttingDown := false;
               started := [(1, 1%positive)];
               backoffTimerCalls := 0; setGracePeriodCalls := 0 |} in
  ∃ st', runIteration env st NextConnected = Continue st' ∧
         setGracePeriodCalls st' ≠ setGracePeriodCalls st ∧
         tunnelsConnecting (sup st') = ∅.
Proof.
  intros env st.
  destruct (runIteration env st NextConnected) as [st'| |] eqn:Hstep;
    try discriminate Hstep.
  assert (Hcalls : setGracePeriodCalls st' ≠ setGracePeriodCalls st).
  { vm_compute in Hstep. injection Hstep as <-. intros H. discriminate H. }
  exists st'. split; [reflexivity|]. split; [exact Hcalls|].
  exact (proj1 (proj2 (proj2
    (runIteration_SetGracePeriod env st NextConnected st' Hstep Hcalls)))).
Defined.
